(** * BarbadosPropertyScraper: a shallow embedding of [main.py]

    The scraper walks the paginated index of a property site, visits every
    listing it has not seen yet, extracts one record per listing and names
    the spreadsheet it writes after the start URL.

    Modelling conventions.
    - A Python [str] is a [string]; a character stands for the code point of
      the same number, so the strings covered are those of code points
      0..255 (Latin-1).  The character classes of [str.strip], [str.lower]
      and of the regular expression [\w] are written out for that range.
    - A Python [dict] with string keys is a [gmap string _]; the set
      [scraped_urls] is a [gset string].
    - The parsed document ([BeautifulSoup(..., 'html.parser')]) is a tree of
      tags and strings; the selectors the program uses are interpreted over
      that tree.
    - Exceptions are explicit: a missing attribute raises [KeyError], a
      failed request raises [RequestException]; both abort the walk, as no
      [try] appears in the source.
    - [scrape_page] calls itself once per index page.  Its first argument
      is the number of nested calls the recursion limit of the interpreter
      still allows: the call that exceeds it raises [RecursionError] before
      it does anything.  The stack the library calls need inside a call is
      not counted apart.
    - The [print] calls and the writing of the spreadsheet are left out; the
      calls of [requests.get] are recorded, in order. *)

From Stdlib Require Import Ascii String NArith List Lia.
From stdpp Require Import base option list strings gmap pretty.

Local Open Scope string_scope.
Local Open Scope list_scope.
Local Set Warnings "-register-all".

(** ** Characters *)

Definition ord (c : ascii) : N := N_of_ascii c.

Definition between (lo hi : N) (c : ascii) : bool :=
  ((lo <=? ord c) && (ord c <=? hi))%N.

(** [str.isspace] on code points below 256. *)
Definition isspace (c : ascii) : bool :=
  between 9 13 c || between 28 32 c || (ord c =? 133)%N || (ord c =? 160)%N.

(** The characters of the class [[A-Za-z0-9]]. *)
Definition ascii_alnum (c : ascii) : bool :=
  between 48 57 c || between 65 90 c || between 97 122 c.

(** Alphanumeric code points of the Latin-1 supplement: the letters
    (feminine and masculine ordinal, micro sign, U+00C0..U+00FF without the
    multiplication and division signs), the superscript digits and the
    vulgar fractions. *)
Definition latin1_alnum (c : ascii) : bool :=
  (ord c =? 170)%N || (ord c =? 178)%N || (ord c =? 179)%N ||
  (ord c =? 181)%N || (ord c =? 185)%N || (ord c =? 186)%N ||
  between 188 190 c || between 192 214 c || between 216 246 c ||
  between 248 255 c.

(** [\w] of [re] on a [str] pattern: alphanumeric or underscore. *)
Definition re_word (c : ascii) : bool :=
  ascii_alnum c || latin1_alnum c || (ord c =? 95)%N.

(** The characters of [[A-Za-z0-9_.-]]. *)
Definition filename_char (c : ascii) : bool :=
  ascii_alnum c || (ord c =? 95)%N || (ord c =? 46)%N || (ord c =? 45)%N.

Definition is_ascii (c : ascii) : bool := (ord c <? 128)%N.

(** One character of [str.lower]. *)
Definition lower_char (c : ascii) : ascii :=
  if between 65 90 c || (between 192 222 c && negb (ord c =? 215)%N)
  then ascii_of_N (ord c + 32) else c.

(** ** Strings *)

Fixpoint lower (s : string) : string :=
  match s with
  | EmptyString => EmptyString
  | String c s' => String (lower_char c) (lower s')
  end.

(** [sub in s] *)
Fixpoint str_in (sub s : string) : bool :=
  String.prefix sub s ||
  match s with
  | EmptyString => false
  | String _ s' => str_in sub s'
  end.

(** [s.replace(old, new)]: the occurrences of [old] are taken from left to
    right and do not overlap.  [skip] counts the characters of an occurrence
    still to be passed over. *)
Fixpoint replace_from (old new : string) (skip : nat) (s : string) : string :=
  match s with
  | EmptyString => EmptyString
  | String c s' =>
      match skip with
      | S k => replace_from old new k s'
      | O =>
          if String.prefix old s
          then new +:+ replace_from old new (String.length old - 1) s'
          else String c (replace_from old new 0 s')
      end
  end.

(** With an empty [old], Python puts [new] before every character and at
    the end. *)
Fixpoint intersperse (new s : string) : string :=
  match s with
  | EmptyString => new
  | String c s' => new +:+ String c (intersperse new s')
  end.

Definition replace (old new s : string) : string :=
  match old with
  | EmptyString => intersperse new s
  | _ => replace_from old new 0 s
  end.

Fixpoint lstrip (s : string) : string :=
  match s with
  | EmptyString => EmptyString
  | String c s' => if isspace c then lstrip s' else s
  end.

Fixpoint rstrip (s : string) : string :=
  match s with
  | EmptyString => EmptyString
  | String c s' =>
      match rstrip s' with
      | EmptyString => if isspace c then EmptyString else String c EmptyString
      | r => String c r
      end
  end.

(** [s.strip()] *)
Definition strip (s : string) : string := rstrip (lstrip s).

(** [re.sub(p, repl, s)] for a pattern [p] that is one character class:
    every character of the class is replaced by [repl]. *)
Fixpoint re_sub_class (cls : ascii -> bool) (repl s : string) : string :=
  match s with
  | EmptyString => EmptyString
  | String c s' =>
      if cls c then repl +:+ re_sub_class cls repl s'
      else String c (re_sub_class cls repl s')
  end.

(** The class [[^\w\-_.]]. *)
Definition not_word_dash_dot (c : ascii) : bool :=
  negb (re_word c || (ord c =? 45)%N || (ord c =? 95)%N || (ord c =? 46)%N).

Fixpoint string_forall (p : ascii -> bool) (s : string) : bool :=
  match s with
  | EmptyString => true
  | String c s' => p c && string_forall p s'
  end.

Definition chr (n : N) : string := String (ascii_of_N n) EmptyString.

(** ** The parsed document *)

(** A node of the tree built by the parser: a string ([NavigableString]) or
    a tag.  A tag keeps the [class] attribute as the parser does, as the list
    of its tokens; [attrs] holds the other attributes. *)
Inductive node : Type :=
| NavigableString (s : string)
| Tag (name : string) (classes : list string)
      (attrs : list (string * string)) (contents : list node).

(** What a selector sees of a tag. *)
Record element := Element {
  el_name : string;
  el_classes : list string;
  el_attrs : list (string * string)
}.

(** The [BeautifulSoup] object: the top-level nodes of the document. *)
Definition soup := list node.

Fixpoint assoc (k : string) (l : list (string * string)) : option string :=
  match l with
  | [] => None
  | (k', v) :: l' => if String.eqb k k' then Some v else assoc k l'
  end.

Definition contents_of (n : node) : list node :=
  match n with
  | NavigableString _ => []
  | Tag _ _ _ kids => kids
  end.

Definition attrs_of (n : node) : list (string * string) :=
  match n with
  | NavigableString _ => []
  | Tag _ _ a _ => a
  end.

(** *** Selectors *)

Inductive attr_test : Type :=
| Attr_equals (name value : string)      (* [name="value"] *)
| Attr_contains (name value : string).   (* [name*="value"] *)

(** A compound selector: an optional type, classes, attribute tests. *)
Record compound := Compound {
  sel_tag : option string;
  sel_classes : list string;
  sel_attrs : list attr_test
}.

(** A complex selector whose combinators are all the descendant one,
    written from the outermost compound to the subject. *)
Definition selector := list compound.

Definition attr_test_holds (e : element) (t : attr_test) : bool :=
  match t with
  | Attr_equals n v =>
      match assoc n (el_attrs e) with
      | Some v' => String.eqb v' v
      | None => false
      end
  | Attr_contains n v =>
      match assoc n (el_attrs e) with
      | Some v' => str_in v v'
      | None => false
      end
  end.

Definition string_mem (s : string) (l : list string) : bool :=
  existsb (String.eqb s) l.

Definition matches_compound (c : compound) (e : element) : bool :=
  match sel_tag c with
  | Some t => String.eqb t (el_name e)
  | None => true
  end
  && forallb (fun k => string_mem k (el_classes e)) (sel_classes c)
  && forallb (attr_test_holds e) (sel_attrs c).

(** [cs] lists the compounds that remain, innermost first; [anc] the
    ancestors, nearest first. *)
Fixpoint match_ancestors (cs : list compound) (anc : list element) {struct anc} : bool :=
  match cs with
  | [] => true
  | c :: cs' =>
      match anc with
      | [] => false
      | a :: anc' =>
          if matches_compound c a then match_ancestors cs' anc'
          else match_ancestors cs anc'
      end
  end.

Definition matches (sel : selector) (anc : list element) (e : element) : bool :=
  match rev sel with
  | [] => false
  | subject :: outer => matches_compound subject e && match_ancestors outer anc
  end.

(** The tags below a node that satisfy [p], in document order; [p] is given
    the ancestors of the tag. *)
Fixpoint find_all_node (p : list element -> element -> bool)
    (anc : list element) (n : node) : list node :=
  match n with
  | NavigableString _ => []
  | Tag name cls attrs kids =>
      let e := Element name cls attrs in
      (if p anc e then [n] else []) ++
      (fix go (l : list node) : list node :=
         match l with
         | [] => []
         | k :: l' => find_all_node p (e :: anc) k ++ go l'
         end) kids
  end.

Definition find_all (p : list element -> element -> bool) (l : list node) : list node :=
  flat_map (find_all_node p []) l.

(** [soup.select(sel)] and [tag.select(sel)]: the matching descendants. *)
Definition select (sel : selector) (l : list node) : list node :=
  find_all (matches sel) l.

(** [select_one]: the first match in document order, or [None]. *)
Definition select_one (sel : selector) (l : list node) : option node :=
  head (select sel l).

(** [find('div', class_=cls)]: the first [div] one of whose class tokens is
    [cls], or whose class tokens joined by spaces are [cls]. *)
Fixpoint join_spaces (l : list string) : string :=
  match l with
  | [] => EmptyString
  | [x] => x
  | x :: l' => x +:+ " " +:+ join_spaces l'
  end.

Definition div_with_class (cls : string) (_ : list element) (e : element) : bool :=
  String.eqb (el_name e) "div" &&
  match el_classes e with
  | [] => false
  | _ => string_mem cls (el_classes e) || String.eqb (join_spaces (el_classes e)) cls
  end.

Definition find_div (cls : string) (l : list node) : option node :=
  head (find_all (div_with_class cls) l).

(** *** Text *)

Fixpoint all_strings (n : node) : list string :=
  match n with
  | NavigableString s => [s]
  | Tag _ _ _ kids =>
      (fix go (l : list node) : list string :=
         match l with
         | [] => []
         | k :: l' => all_strings k ++ go l'
         end) kids
  end.

Definition nonempty (s : string) : bool :=
  match s with
  | EmptyString => false
  | _ => true
  end.

Fixpoint concat_strings (l : list string) : string :=
  match l with
  | [] => EmptyString
  | s :: l' => s +:+ concat_strings l'
  end.

(** [tag.get_text(strip=True)]: every string below the tag is stripped, the
    empty ones are dropped, the rest is joined without separator. *)
Definition get_text_strip (n : node) : string :=
  concat_strings (filter (fun s => nonempty s = true) (map strip (all_strings n))).

(** ** Exceptions *)

Inductive exception : Type :=
| KeyError (key : string)
| RequestException
| RecursionError.

Inductive result (A : Type) : Type :=
| Ok (a : A)
| Raise (e : exception).
Arguments Ok {A} a.
Arguments Raise {A} e.

#[global] Instance result_ret : MRet result := fun _ a => Ok a.
#[global] Instance result_bind : MBind result := fun _ _ k r =>
  match r with
  | Ok a => k a
  | Raise e => Raise e
  end.

(** [tag[key]] *)
Definition getitem (n : node) (key : string) : result string :=
  match assoc key (attrs_of n) with
  | Some v => Ok v
  | None => Raise (KeyError key)
  end.

(** ** The selectors of the program *)

Definition tag_class (t c : string) : compound := Compound (Some t) [c] [].
Definition any_class (c : string) : compound := Compound None [c] [].
Definition tag_only (t : string) : compound := Compound (Some t) [] [].
Definition meta_property (p : string) : selector :=
  [Compound (Some "meta") [] [Attr_equals "property" p]].

(** [div.field-item.even h5 a] *)
Definition sel_listing_links : selector :=
  [Compound (Some "div") ["field-item"; "even"] []; tag_only "h5"; tag_only "a"].
(** [li.pager-next a] *)
Definition sel_pager_next : selector := [tag_class "li" "pager-next"; tag_only "a"].
(** [div.field-name-rental-price .field-item] *)
Definition sel_rental_price : selector :=
  [tag_class "div" "field-name-rental-price"; any_class "field-item"].
(** [div.field-name-field-property-reference .field-item] *)
Definition sel_property_reference : selector :=
  [tag_class "div" "field-name-field-property-reference"; any_class "field-item"].
(** [div.field-name-sale-price .field-item] *)
Definition sel_sale_price : selector :=
  [tag_class "div" "field-name-sale-price"; any_class "field-item"].
(** [div.field-name-external-url-ds- .field-item a] *)
Definition sel_external_link : selector :=
  [tag_class "div" "field-name-external-url-ds-"; any_class "field-item"; tag_only "a"].
Definition sel_og_title : selector := meta_property "og:title".
Definition sel_og_latitude : selector := meta_property "og:latitude".
Definition sel_og_longitude : selector := meta_property "og:longitude".
(** [a[href*="maps.google.com"]] *)
Definition sel_maps_anchor : selector :=
  [Compound (Some "a") [] [Attr_contains "href" "maps.google.com"]].
(** [div.field-name-location-ds- .field-item] *)
Definition sel_location : selector :=
  [tag_class "div" "field-name-location-ds-"; any_class "field-item"].
(** [div.field-name-field-property-type .field-item] *)
Definition sel_property_type : selector :=
  [tag_class "div" "field-name-field-property-type"; any_class "field-item"].
Definition description_class : string :=
  "field field-name-body field-type-text-with-summary field-label-hidden".
(** [div.group-further-information] *)
Definition sel_further_information : selector := [tag_class "div" "group-further-information"].
Definition sel_field_label : selector := [any_class "field-label"].
Definition sel_field_item : selector := [any_class "field-item"].
(** [div.field-name-field-amenities .field-items] *)
Definition sel_amenities : selector :=
  [tag_class "div" "field-name-field-amenities"; any_class "field-items"].
Definition sel_li : selector := [tag_only "li"].

(** ** The record of one listing *)

Module PropertyData.
Record t := Make {
  url : string;
  name : string;
  address : string;
  Sale_Price : string;
  Rent_Price : string;
  Area : string;
  description : string;
  latitude : string;
  longitude : string;
  property_type : string;
  transaction_type : option string;
  characteristics : gmap string string;
  amenities : list string;
  more_information : gmap string string
}.
End PropertyData.

(** ** The scraper object *)

Record BarbadosPropertyScraper := Scraper {
  base_url : string;
  start_url : string;
  data : list PropertyData.t;
  scraped_urls : gset string;
  transaction_type : option string
}.

Definition determine_transaction_type (start_url : string) : option string :=
  if str_in "sale" (lower start_url) then Some "Sale"
  else if str_in "rent" (lower start_url) then Some "Rent"
  else None.

(** [__init__], for any start URL. *)
Definition init (start : string) : BarbadosPropertyScraper :=
  {| base_url := "https://www.barbadospropertysearch.com";
     start_url := start;
     data := [];
     scraped_urls := ∅;
     transaction_type := determine_transaction_type start |}.

(** [__init__] with the start URL of the source. *)
Definition init_default : BarbadosPropertyScraper :=
  init "https://www.barbadospropertysearch.com/for-rent".

(** [self.scraped_urls.add(u)] *)
Definition add_scraped (u : string) (self : BarbadosPropertyScraper) : BarbadosPropertyScraper :=
  {| base_url := base_url self;
     start_url := start_url self;
     data := data self;
     scraped_urls := {[u]} ∪ scraped_urls self;
     transaction_type := transaction_type self |}.

(** [self.data.append(r)] *)
Definition append_data (r : PropertyData.t) (self : BarbadosPropertyScraper) : BarbadosPropertyScraper :=
  {| base_url := base_url self;
     start_url := start_url self;
     data := data self ++ [r];
     scraped_urls := scraped_urls self;
     transaction_type := transaction_type self |}.

(** ** [sanitize_filename] *)

Definition sanitize_filename (url : string) : string :=
  re_sub_class not_word_dash_dot "_"
    (replace "http://" "" (replace "https://" "" url)).

(** The file name built by [save_to_excel]. *)
Definition excel_filename (self : BarbadosPropertyScraper) : string :=
  sanitize_filename (start_url self) +:+ ".xlsx".

(** ** [scrape_listing]: the record built from a parsed listing page *)

(** [e.get_text(strip=True) if e else '-'] *)
Definition text_or_dash (o : option node) : string :=
  match o with
  | Some e => get_text_strip e
  | None => "-"
  end.

(** [e[key] if e else '-'] *)
Definition item_or_dash (o : option node) (key : string) : result string :=
  match o with
  | Some e => getitem e key
  | None => Ok "-"
  end.

(** [x or y], for [x] a string or [None]: [y] unless [x] is a non-empty
    string. *)
Definition py_or (x : option string) (y : string) : string :=
  match x with
  | Some (String c s) => String c s
  | _ => y
  end.

(** [d.get(k, dflt)] *)
Definition dict_get (d : gmap string string) (k dflt : string) : string :=
  default dflt (d !! k).

(** The loop over [zip(field_labels, field_items)]. *)
Definition characteristics_of (field_labels field_items : list node) : gmap string string :=
  fold_left
    (fun d (p : node * node) =>
       let key := replace ":" "" (get_text_strip p.1) in
       let value := get_text_strip p.2 in
       <[key := value]> d)
    (zip field_labels field_items) ∅.

Definition property_data (self : BarbadosPropertyScraper) (url : string) (page : soup)
  : result PropertyData.t :=
  let more_info : gmap string string := ∅ in
  let rental_price := text_or_dash (select_one sel_rental_price page) in
  let more_info := <["Rental Price" := rental_price]> more_info in
  let property_reference := text_or_dash (select_one sel_property_reference page) in
  let more_info := <["Property Reference" := property_reference]> more_info in
  let sale_price := text_or_dash (select_one sel_sale_price page) in
  let more_info := <["Sale Price" := sale_price]> more_info in
  external_link ← item_or_dash (select_one sel_external_link page) "href";
  let more_info := <["External Link" := external_link]> more_info in
  name ← item_or_dash (select_one sel_og_title page) "content";
  latitude ← item_or_dash (select_one sel_og_latitude page) "content";
  longitude ← item_or_dash (select_one sel_og_longitude page) "content";
  let address :=
    match select_one sel_maps_anchor page with
    | Some a => get_text_strip a
    | None => text_or_dash (select_one sel_location page)
    end in
  let property_type := text_or_dash (select_one sel_property_type page) in
  let transaction_type := transaction_type self in
  let description := text_or_dash (find_div description_class page) in
  let characteristics :=
    match select_one sel_further_information page with
    | Some further_info_div =>
        let field_labels := select sel_field_label (contents_of further_info_div) in
        let field_items := select sel_field_item (contents_of further_info_div) in
        characteristics_of field_labels field_items
    | None => ∅
    end in
  let amenities :=
    match select_one sel_amenities page with
    | Some amenities_list => map get_text_strip (select sel_li (contents_of amenities_list))
    | None => []
    end in
  mret {| PropertyData.url := url;
          PropertyData.name := name;
          PropertyData.address := address;
          PropertyData.Sale_Price := dict_get more_info "Sale Price" "-";
          PropertyData.Rent_Price := dict_get more_info "Rental Price" "-";
          PropertyData.Area :=
            py_or (characteristics !! "Land Area")
                  (dict_get characteristics "Floor Area" "N/A");
          PropertyData.description := description;
          PropertyData.latitude := latitude;
          PropertyData.longitude := longitude;
          PropertyData.property_type := property_type;
          PropertyData.transaction_type := transaction_type;
          PropertyData.characteristics := characteristics;
          PropertyData.amenities := amenities;
          PropertyData.more_information := more_info |}.

(** ** The walk *)

(** A call of [requests.get], tagged by the method that makes it. *)
Inductive request : Type :=
| Index_page (url : string)      (* from [scrape_page] *)
| Listing_page (url : string).   (* from [scrape_listing] *)

(** The site: the parsed document behind every URL, [None] where the
    request fails.  It does not change during a run. *)
Definition site := string -> option soup.

(** The scraper object together with the requests sent so far, oldest
    first. *)
Record process := Process {
  self : BarbadosPropertyScraper;
  sent : list request
}.

(** How a call ends: it returns or it raises. *)
Inductive outcome : Type :=
| Returned
| Raised (e : exception).

Definition send (r : request) (p : process) : process :=
  {| self := self p; sent := sent p ++ [r] |}.

Definition update (f : BarbadosPropertyScraper -> BarbadosPropertyScraper) (p : process) : process :=
  {| self := f (self p); sent := sent p |}.

(** Sequencing: the rest of the body runs only if the call returned. *)
Definition and_then (r : process * outcome) (k : process -> process * outcome)
  : process * outcome :=
  match r.2 with
  | Returned => k r.1
  | _ => r
  end.

Definition scrape_listing (web : site) (url : string) (p : process) : process * outcome :=
  let p := send (Listing_page url) p in
  match web url with
  | None => (p, Raised RequestException)
  | Some page =>
      match property_data (self p) url page with
      | Raise e => (p, Raised e)
      | Ok r => (update (append_data r) p, Returned)
      end
  end.

(** The loop [for element in listing_elements]. *)
Fixpoint scrape_elements (web : site) (listing_elements : list node) (p : process)
  : process * outcome :=
  match listing_elements with
  | [] => (p, Returned)
  | element :: rest =>
      match getitem element "href" with
      | Raise e => (p, Raised e)
      | Ok href =>
          let property_url := base_url (self p) +:+ href in
          if decide (property_url ∈ scraped_urls (self p))
          then scrape_elements web rest p
          else
            and_then
              (scrape_listing web property_url (update (add_scraped property_url) p))
              (scrape_elements web rest)
      end
  end.

(** [scrape_page].  [depth] is the number of nested calls of [scrape_page]
    the recursion limit of the interpreter still allows; a call beyond it
    raises [RecursionError]. *)
Fixpoint scrape_page (depth : nat) (web : site) (url : string) (p : process)
  : process * outcome :=
  match depth with
  | O => (p, Raised RecursionError)
  | S depth' =>
      let p := send (Index_page url) p in
      match web url with
      | None => (p, Raised RequestException)
      | Some page =>
          and_then
            (scrape_elements web (select sel_listing_links page) p)
            (fun p =>
               match select_one sel_pager_next page with
               | Some next_page_element =>
                   match getitem next_page_element "href" with
                   | Raise e => (p, Raised e)
                   | Ok href =>
                       scrape_page depth' web (base_url (self p) +:+ href) p
                   end
               | None => (p, Returned)
               end)
      end
  end.

(** [scrape]: the walk from the start URL; when it returns, the collected
    records are written to the file named by [excel_filename]. *)
Definition scrape (depth : nat) (web : site) (s : BarbadosPropertyScraper)
  : process * outcome :=
  scrape_page depth web (start_url s) {| self := s; sent := [] |}.

(** ** What a run did *)

Definition index_requests (l : list request) : list string :=
  omap (fun r => match r with Index_page u => Some u | _ => None end) l.

Definition listing_requests (l : list request) : list string :=
  omap (fun r => match r with Listing_page u => Some u | _ => None end) l.

Definition record_urls (s : BarbadosPropertyScraper) : list string :=
  map PropertyData.url (data s).

(** The records of the collection whose [url] is [u]. *)
Definition records_for (u : string) (s : BarbadosPropertyScraper) : list PropertyData.t :=
  filter (fun r => PropertyData.url r = u) (data s).

(** [u] is the target of a listing link of the index page at [page_url]. *)
Definition discoverable (web : site) (s : BarbadosPropertyScraper) (page_url u : string) : Prop :=
  ∃ page el href,
    web page_url = Some page ∧
    el ∈ select sel_listing_links page ∧
    getitem el "href" = Ok href ∧
    u = base_url s +:+ href.

(** ** A small site to run the model on *)

Module Demo.
Definition text (s : string) : node := NavigableString s.
Definition card (href : string) : node :=
  Tag "div" ["field-item"; "even"] []
    [Tag "h5" [] [] [Tag "a" [] [("href", href)] [text "view"]]].
Definition pager (href : string) : node :=
  Tag "ul" ["pager"] [] [Tag "li" ["pager-next"] [] [Tag "a" [] [("href", href)] [text "next"]]].
Definition field (cls label value : string) : node :=
  Tag "div" ["field"; cls] []
    [Tag "div" ["field-label"] [] [text label];
     Tag "div" ["field-items"] [] [Tag "div" ["field-item"; "even"] [] [text value]]].

Definition index1 : soup := [Tag "html" [] [] [card "/p/1"; card "/p/2"; pager "/for-rent?page=1"]].
Definition index2 : soup := [Tag "html" [] [] [card "/p/2"; card "/p/3"]].
Definition listing (title : string) (body : list node) : soup :=
  [Tag "html" [] []
     [Tag "head" [] [] [Tag "meta" [] [("property", "og:title"); ("content", title)] []];
      Tag "body" [] [] body]].
Definition p1 : soup :=
  listing "Villa"
    [field "field-name-rental-price" "Rental Price: " " $1,000 ";
     Tag "div" ["group-further-information"] []
       [field "field-name-land" "Land Area: " "5000 sqft";
        field "field-name-floor" "Floor Area: " "1200 sqft"]].
Definition p2 : soup :=
  listing "Flat"
    [Tag "a" [] [("href", "https://maps.google.com/?q=1")] [text " Bridgetown "];
     Tag "div" ["group-further-information"] []
       [field "field-name-floor" "Floor Area: " "900 sqft"]].
Definition p3 : soup := listing "Plot" [].

Definition b : string := "https://www.barbadospropertysearch.com".
Definition web : site := fun u =>
  if String.eqb u (b +:+ "/for-rent") then Some index1
  else if String.eqb u (b +:+ "/for-rent?page=1") then Some index2
  else if String.eqb u (b +:+ "/p/1") then Some p1
  else if String.eqb u (b +:+ "/p/2") then Some p2
  else if String.eqb u (b +:+ "/p/3") then Some p3
  else None.
End Demo.

(** * Definitions used to state the properties *)

(** ** Strings *)

Fixpoint string_map (f : ascii -> ascii) (s : string) : string :=
  match s with
  | EmptyString => EmptyString
  | String c s' => String (f c) (string_map f s')
  end.

(** What [sanitize_filename] does to one character. *)
Definition sanitize_char (c : ascii) : ascii :=
  if re_word c || (ord c =? 45)%N || (ord c =? 46)%N then c else "_"%char.

(** ** The record of a listing page *)

(** The characteristics mapping read from a page. *)
Definition page_characteristics (page : soup) : gmap string string :=
  match select_one sel_further_information page with
  | Some further_info_div =>
      characteristics_of
        (select sel_field_label (contents_of further_info_div))
        (select sel_field_item (contents_of further_info_div))
  | None => ∅
  end.

(** The record [property_data] returns when the four attribute reads gave
    [external_link], [name], [latitude] and [longitude]. *)
Definition record_of (self : BarbadosPropertyScraper) (url : string) (page : soup)
    (external_link name latitude longitude : string) : PropertyData.t :=
  let more_info : gmap string string :=
    <["External Link" := external_link]>
      (<["Sale Price" := text_or_dash (select_one sel_sale_price page)]>
         (<["Property Reference" := text_or_dash (select_one sel_property_reference page)]>
            (<["Rental Price" := text_or_dash (select_one sel_rental_price page)]> ∅))) in
  {| PropertyData.url := url;
     PropertyData.name := name;
     PropertyData.address :=
       match select_one sel_maps_anchor page with
       | Some a => get_text_strip a
       | None => text_or_dash (select_one sel_location page)
       end;
     PropertyData.Sale_Price := dict_get more_info "Sale Price" "-";
     PropertyData.Rent_Price := dict_get more_info "Rental Price" "-";
     PropertyData.Area :=
       py_or (page_characteristics page !! "Land Area")
             (dict_get (page_characteristics page) "Floor Area" "N/A");
     PropertyData.description := text_or_dash (find_div description_class page);
     PropertyData.latitude := latitude;
     PropertyData.longitude := longitude;
     PropertyData.property_type := text_or_dash (select_one sel_property_type page);
     PropertyData.transaction_type := transaction_type self;
     PropertyData.characteristics := page_characteristics page;
     PropertyData.amenities :=
       match select_one sel_amenities page with
       | Some amenities_list =>
           map get_text_strip (select sel_li (contents_of amenities_list))
       | None => []
       end;
     PropertyData.more_information := more_info |}.

(** The attribute read of [e[key] if e else '-'] succeeds. *)
Definition read_ok (o : option node) (key : string) : Prop :=
  match o with
  | Some e => is_Some (assoc key (attrs_of e))
  | None => True
  end.

(** Every attribute [scrape_listing] reads from a matched element is
    there. *)
Definition attribute_reads_ok (page : soup) : Prop :=
  read_ok (select_one sel_external_link page) "href" ∧
  read_ok (select_one sel_og_title page) "content" ∧
  read_ok (select_one sel_og_latitude page) "content" ∧
  read_ok (select_one sel_og_longitude page) "content".

(** ** What [select] finds *)

Definition element_of (n : node) : element :=
  Element
    (match n with Tag name _ _ _ => name | NavigableString _ => EmptyString end)
    (match n with Tag _ cls _ _ => cls | NavigableString _ => [] end)
    (attrs_of n).

(** [located anc l anc' n]: [n] is a tag of the forest [l], itself below
    the ancestors [anc], and the ancestors of [n] are [anc'] (nearest
    first). *)
Inductive located : list element -> list node -> list element -> node -> Prop :=
| located_here anc l name cls attrs kids :
    Tag name cls attrs kids ∈ l ->
    located anc l anc (Tag name cls attrs kids)
| located_below anc l name cls attrs kids anc' n :
    Tag name cls attrs kids ∈ l ->
    located (Element name cls attrs :: anc) kids anc' n ->
    located anc l anc' n.

(** [n] is a tag of the document, with ancestors [anc]. *)
Definition tag_of (page : list node) (anc : list element) (n : node) : Prop :=
  located [] page anc n.

Section NodeInduction.
Variable P : node -> Prop.
Hypothesis P_string : ∀ s, P (NavigableString s).
Hypothesis P_tag : ∀ name cls attrs kids,
  Forall P kids -> P (Tag name cls attrs kids).

Fixpoint node_rect_forall (n : node) : P n :=
  match n with
  | NavigableString s => P_string s
  | Tag name cls attrs kids =>
      P_tag name cls attrs kids
        ((fix go (l : list node) : Forall P l :=
            match l with
            | [] => @List.Forall_nil _ P
            | k :: l' => @List.Forall_cons _ P k l' (node_rect_forall k) (go l')
            end) kids)
  end.
End NodeInduction.

(** ** The address *)

(** An anchor whose [href] contains "maps.google.com". *)
Definition maps_anchor (n : node) : Prop :=
  el_name (element_of n) = "a" ∧
  ∃ href, assoc "href" (attrs_of n) = Some href ∧ str_in "maps.google.com" href = true.

(** A [.field-item] below a [div.field-name-location-ds-]. *)
Definition location_item (anc : list element) (n : node) : Prop :=
  matches sel_location anc (element_of n) = true.

(** ** The characteristics *)

(** The key made of a label: its stripped text without colons. *)
Definition label_key (label : node) : string :=
  replace ":" "" (get_text_strip label).

(** The mapping the specification describes: label [i] is paired with item
    [i]; where a key occurs more than once, its last pair counts. *)
Definition positional_mapping (keys values : list string) : gmap string string :=
  list_to_map (reverse (zip keys values)).

(** ** Pages and sites for the counterexamples *)

(** A listing page whose "Land Area" item is empty and whose "Floor Area"
    item is "1200 sqft". *)
Definition page_empty_land_area : soup :=
  Demo.listing "Plot"
    [Tag "div" ["group-further-information"] []
       [Tag "div" ["field"; "field-name-land"] []
          [Tag "div" ["field-label"] [] [Demo.text "Land Area: "];
           Tag "div" ["field-items"] [] [Tag "div" ["field-item"; "even"] [] []]];
        Demo.field "field-name-floor" "Floor Area: " "1200 sqft"]].

(** A listing page whose only tag is a [meta property="og:title"] without
    [content]. *)
Definition page_title_without_content : soup :=
  [Tag "meta" [] [("property", "og:title")] []].

(** ** Missing fields *)

(** The selector matches no tag of the page. *)
Definition unmatched (sel : selector) (page : soup) : Prop :=
  ∀ anc n, tag_of page anc n -> matches sel anc (element_of n) = false.

(** No [div] of the page has the class string of the description. *)
Definition no_description (page : soup) : Prop :=
  ∀ anc n, tag_of page anc n -> div_with_class description_class anc (element_of n) = false.


(** ** The walk *)

(** What the walk never changes, and what it only extends. *)
Record extends (p p' : process) : Prop := {
  ext_base_url : base_url (self p') = base_url (self p);
  ext_start_url : start_url (self p') = start_url (self p);
  ext_transaction_type : transaction_type (self p') = transaction_type (self p);
  ext_scraped_urls : scraped_urls (self p) ⊆ scraped_urls (self p');
  ext_data : data (self p) `prefix_of` data (self p');
  ext_sent : sent p `prefix_of` sent p'
}.

(** ** The transaction type *)

(** Every record collected so far carries the transaction type of the
    scraper. *)
Definition typed (p : process) : Prop :=
  Forall (fun r => PropertyData.transaction_type r = transaction_type (self p))
         (data (self p)).

(** ** At most one extraction per URL *)

(** The visited set holds exactly the URLs whose listing page was
    requested, and none was requested twice. *)
Definition consistent (p : process) : Prop :=
  NoDup (listing_requests (sent p)) ∧
  ∀ u, u ∈ scraped_urls (self p) ↔ u ∈ listing_requests (sent p).

(** Every requested listing has its record, in the order of the
    requests. *)
Definition settled (p : process) : Prop :=
  record_urls (self p) = listing_requests (sent p).

(** ** Pagination *)

(** A chain of index pages: every URL of the list answers with its page,
    the "next page" link of each page leads to the following one, and the
    last page has no such link. *)
Fixpoint is_chain (web : site) (base : string) (pages : list (string * soup)) : Prop :=
  match pages with
  | [] => False
  | (u, page) :: rest =>
      web u = Some page ∧
      match rest with
      | [] => select_one sel_pager_next page = None
      | (u', _) :: _ =>
          (∃ el href, select_one sel_pager_next page = Some el ∧
                      getitem el "href" = Ok href ∧ u' = base +:+ href) ∧
          is_chain web base rest
      end
  end.

(** The listing behind a link can be extracted: the link has an [href],
    the request for its page succeeds, and the attributes read from the
    page are there. *)
Definition listing_link_ok (web : site) (base : string) (el : node) : Prop :=
  ∃ href page, getitem el "href" = Ok href ∧
               web (base +:+ href) = Some page ∧
               attribute_reads_ok page.

Definition listings_ok (web : site) (base : string) (pages : list (string * soup)) : Prop :=
  ∀ u page el, (u, page) ∈ pages -> el ∈ select sel_listing_links page ->
               listing_link_ok web base el.

(** ** A site whose first index page has a listing link without [href] *)

Module Broken.
Definition index1 : soup :=
  [Tag "html" [] []
     [Tag "div" ["field-item"; "even"] []
        [Tag "h5" [] [] [Tag "a" [] [] [Demo.text "view"]]];
      Demo.pager "/for-rent?page=1"]].
Definition web : site := fun u =>
  if String.eqb u (Demo.b +:+ "/for-rent") then Some index1
  else if String.eqb u (Demo.b +:+ "/for-rent?page=1") then Some Demo.index2
  else Demo.web u.
Definition pages : list (string * soup) :=
  [(Demo.b +:+ "/for-rent", index1); (Demo.b +:+ "/for-rent?page=1", Demo.index2)].
End Broken.

(** * Definitions for further properties *)

(** ** Strings *)

Definition not_colon (c : ascii) : bool := negb (ord c =? 58)%N.
Definition not_slash (c : ascii) : bool := negb (ord c =? 47)%N.

(** The string is empty or its first character is no whitespace. *)
Definition starts_nonspace (s : string) : Prop :=
  match s with
  | EmptyString => True
  | String c _ => isspace c = false
  end.

(** Neither end of the string is whitespace. *)
Definition trimmed (s : string) : Prop :=
  starts_nonspace s ∧ rstrip s = s.

Fixpoint last_char (s : string) : option ascii :=
  match s with
  | EmptyString => None
  | String c EmptyString => Some c
  | String _ s' => last_char s'
  end.

(** ** [save_to_excel] *)

(** [os.path.join(a, b)] of [posixpath]. *)
Definition posix_join (a b : string) : string :=
  if String.prefix "/" b then b
  else
    match last_char a with
    | None => b
    | Some c => if (ord c =? 47)%N then a +:+ b else a +:+ "/" +:+ b
    end.

(** Where [save_to_excel] writes. *)
Record workbook := Workbook {
  file_path : string
}.

(** [save_to_excel], as far as the path of the file, with the working
    directory [cwd] of the process.  The writing itself ([pandas],
    [openpyxl]), which can fail, is not modelled. *)
Definition save_to_excel (cwd : string) (self : BarbadosPropertyScraper) : workbook :=
  let sanitized_filename := sanitize_filename (start_url self) +:+ ".xlsx" in
  let output_dir := posix_join cwd "output" in
  let file_path := posix_join output_dir sanitized_filename in
  {| file_path := file_path |}.

(** ** The walk *)

Definition request_url (r : request) : string :=
  match r with
  | Index_page u => u
  | Listing_page u => u
  end.

(** The site answers the request. *)
Definition answered (web : site) (r : request) : Prop :=
  is_Some (web (request_url r)).

(** The URLs of a list that are neither in [seen] nor earlier in the list,
    in their order. *)
Fixpoint first_occurrences (seen : gset string) (urls : list string) : list string :=
  match urls with
  | [] => []
  | u :: rest =>
      if decide (u ∈ seen) then first_occurrences seen rest
      else u :: first_occurrences ({[u]} ∪ seen) rest
  end.

(** The targets of the links among [els] that have an [href]. *)
Definition link_urls (base : string) (els : list node) : list string :=
  omap (fun el =>
          match getitem el "href" with
          | Ok href => Some (base +:+ href)
          | Raise _ => None
          end) els.

(** The targets of the listing links of the index page at [u]. *)
Definition page_links (web : site) (base : string) (u : string) : list string :=
  match web u with
  | Some page => link_urls base (select sel_listing_links page)
  | None => []
  end.

(** Records and requested listings agree, but for a last listing that was
    requested and gave no record. *)
Definition nearly_settled (p : process) : Prop :=
  settled p ∨ ∃ u, listing_requests (sent p) = record_urls (self p) ++ [u].

(** Every record is the one extracted from the page behind its URL, for a
    scraper of transaction type [t]. *)
Definition sourced (web : site) (s0 : BarbadosPropertyScraper) (p : process) : Prop :=
  Forall (fun r => ∃ page, web (PropertyData.url r) = Some page ∧
                           property_data s0 (PropertyData.url r) page = Ok r)
         (data (self p)).

(** Every request sent was answered; when the call raised for a failed
    request, every request but the last, which is the one that failed. *)
Definition requests_answered (web : site) (p : process) (o : outcome) : Prop :=
  match o with
  | Raised RequestException =>
      ∃ l q, sent p = l ++ [q] ∧ Forall (answered web) l ∧ web (request_url q) = None
  | _ => Forall (answered web) (sent p)
  end.

(** Every listing requested is the target of a listing link of an index
    page requested. *)
Definition known (web : site) (s0 : BarbadosPropertyScraper) (p : process) : Prop :=
  Forall (fun u => ∃ idx, idx ∈ index_requests (sent p) ∧ discoverable web s0 idx u)
         (listing_requests (sent p)).

(** ** A site whose index page is its own next page *)

Module Loop.
Definition index : soup :=
  [Tag "html" [] [] [Demo.card "/p/1"; Demo.pager "/for-rent"]].
Definition web : site := fun u =>
  if String.eqb u (Demo.b +:+ "/for-rent") then Some index else Demo.web u.
End Loop.

(** ** Chains given by their URLs *)

(** The pages a site answers for a list of URLs. *)
Definition pages_of (web : site) (urls : list string) : list (string * soup) :=
  map (fun u => (u, default [] (web u))) urls.



(** ** A chain of 1001 index pages *)

Fixpoint strip_prefix (p s : string) : option string :=
  match p with
  | EmptyString => Some s
  | String a p' =>
      match s with
      | EmptyString => None
      | String b s' => if Ascii.eqb a b then strip_prefix p' s' else None
      end
  end.

Fixpoint parse_digits (acc : nat) (s : string) : option nat :=
  match s with
  | EmptyString => Some acc
  | String c s' =>
      if between 48 57 c
      then parse_digits (10 * acc + (N.to_nat (ord c) - 48)) s'
      else None
  end.

Module LongChain.
Definition size : nat := 1001.
Definition path : string := "/for-rent?page=".
Definition url (i : nat) : string := Demo.b +:+ path +:+ pretty i.
Definition page (i : nat) : soup :=
  if decide (S i < size)
  then [Tag "html" [] [] [Demo.pager (path +:+ pretty (S i))]]
  else [Tag "html" [] [] []].
Definition web : site := fun u =>
  match strip_prefix (Demo.b +:+ path) u with
  | Some digits =>
      match parse_digits 0 digits with
      | Some i => if decide (i < size) then Some (page i) else None
      | None => None
      end
  | None => None
  end.
Definition urls : list string := map url (seq 0 size).
Definition pages : list (string * soup) := pages_of web urls.
End LongChain.

(** * Properties *)

(** ** Strings *)

Example lower_ex : lower "HTTPS://X.com/For-Sale" = "https://x.com/for-sale".
Proof. reflexivity. Qed.
Example replace_ex : replace "ab" "" "xababyab" = "xy".
Proof. reflexivity. Qed.
Example replace_ex2 : replace "aa" "b" "aaa" = "ba".
Proof. reflexivity. Qed.
Example strip_ex : strip "  a b  " = "a b".
Proof. reflexivity. Qed.
Example sub_ex : re_sub_class not_word_dash_dot "_" "example.com/for-rent?x=1" = "example.com_for-rent_x_1".
Proof. reflexivity. Qed.

Lemma re_sub_class_map s :
  re_sub_class not_word_dash_dot "_" s = string_map sanitize_char s.
Proof.
  induction s as [|c s IH]; simpl; [reflexivity|].
  rewrite IH. unfold not_word_dash_dot, sanitize_char, re_word.
  destruct (ascii_alnum c), (latin1_alnum c), (ord c =? 95)%N,
    (ord c =? 45)%N, (ord c =? 46)%N; reflexivity.
Qed.

Lemma sanitize_char_kept c :
  filename_char (sanitize_char c) || latin1_alnum (sanitize_char c) = true.
Proof.
  destruct c as [[] [] [] [] [] [] [] []]; vm_compute; reflexivity.
Qed.

Lemma latin1_alnum_not_ascii c : is_ascii c = true -> latin1_alnum c = false.
Proof.
  destruct c as [[] [] [] [] [] [] [] []]; vm_compute; congruence.
Qed.

Lemma sanitize_char_ascii c :
  is_ascii c = true -> filename_char (sanitize_char c) = true.
Proof.
  intros H. pose proof (sanitize_char_kept c) as K.
  unfold sanitize_char in *.
  destruct (re_word c || (ord c =? 45)%N || (ord c =? 46)%N).
  - rewrite (latin1_alnum_not_ascii c H), orb_false_r in K. exact K.
  - reflexivity.
Qed.

Lemma string_forall_map (p q : ascii -> bool) f s :
  (forall c, p c = true -> q (f c) = true) ->
  string_forall p s = true -> string_forall q (string_map f s) = true.
Proof.
  intros Hf. induction s as [|c s IH]; simpl; [reflexivity|].
  intros [Hc Hs]%andb_true_iff. rewrite (Hf c Hc), (IH Hs). reflexivity.
Qed.

Lemma string_forall_true s : string_forall (fun _ => true) s = true.
Proof. induction s; simpl; auto. Qed.

Lemma replace_from_cons old new k c s :
  replace_from old new k (String c s) =
  match k with
  | S k' => replace_from old new k' s
  | O =>
      if String.prefix old (String c s)
      then new +:+ replace_from old new (String.length old - 1) s
      else String c (replace_from old new 0 s)
  end.
Proof. reflexivity. Qed.

(** Deleting the occurrences of a substring keeps only characters that
    were there. *)
Lemma replace_from_delete_forall p old k s :
  string_forall p s = true -> string_forall p (replace_from old "" k s) = true.
Proof.
  revert k. induction s as [|c s IH]; intros k; [reflexivity|].
  cbn [string_forall]. intros [Hc Hs]%andb_true_iff.
  rewrite replace_from_cons.
  destruct k as [|k]; [|apply IH, Hs].
  destruct (String.prefix old (String c s)).
  - cbn [String.append]. apply IH, Hs.
  - cbn [string_forall]. rewrite Hc. apply IH, Hs.
Qed.

Lemma replace_delete_forall p old s :
  old <> "" ->
  string_forall p s = true -> string_forall p (replace old "" s) = true.
Proof.
  intros Hne. unfold replace. destruct old; [congruence|].
  apply replace_from_delete_forall.
Qed.

(** ** [sanitize_filename] *)

(** C4, as the claim states it, fails: a letter outside ASCII is a word
    character for [\w] and is kept.  "https://example.com/caf" followed by
    U+00E9 gives "example.com_caf" followed by U+00E9. *)
Lemma sanitize_filename_keeps_e_acute :
  sanitize_filename ("https://example.com/caf" +:+ chr 233) = "example.com_caf" +:+ chr 233
  /\ string_forall filename_char (sanitize_filename ("https://example.com/caf" +:+ chr 233)) = false.
Proof. split; vm_compute; reflexivity. Qed.

(** C4, amended: [sanitize_filename] deletes every occurrence of "https://"
    and then of "http://", and replaces by "_" every character that is not a
    word character of [\w], "-" or "."; the result holds only characters of
    [[A-Za-z0-9_.-]] and letters or digits outside ASCII, hence only
    characters of [[A-Za-z0-9_.-]] when the URL is ASCII; and
    "https://example.com/for-rent?x=1" gives "example.com_for-rent_x_1". *)
Theorem sanitize_filename_spec (url : string) :
  sanitize_filename url
    = string_map sanitize_char (replace "http://" "" (replace "https://" "" url))
  /\ string_forall (fun c => filename_char c || latin1_alnum c) (sanitize_filename url) = true
  /\ (string_forall is_ascii url = true ->
      string_forall filename_char (sanitize_filename url) = true)
  /\ sanitize_filename "https://example.com/for-rent?x=1" = "example.com_for-rent_x_1".
Proof.
  unfold sanitize_filename. rewrite re_sub_class_map.
  split; [reflexivity|]. split; [|split; [|reflexivity]].
  - apply string_forall_map with (p := fun _ => true).
    + intros c _. apply sanitize_char_kept.
    + apply string_forall_true.
  - intros H. apply string_forall_map with (p := is_ascii).
    + intros c Hc. apply sanitize_char_ascii, Hc.
    + apply replace_delete_forall; [discriminate|].
      apply replace_delete_forall; [discriminate|]. exact H.
Qed.

Lemma sanitize_filename_spec_witness :
  string_forall filename_char
    (sanitize_filename "https://www.barbadospropertysearch.com/for-rent") = true.
Proof.
  apply (sanitize_filename_spec "https://www.barbadospropertysearch.com/for-rent").
  reflexivity.
Defined.

(** ** The record of a listing page *)

Lemma property_data_unfold self url page :
  property_data self url page =
  (external_link ← item_or_dash (select_one sel_external_link page) "href";
   name ← item_or_dash (select_one sel_og_title page) "content";
   latitude ← item_or_dash (select_one sel_og_latitude page) "content";
   longitude ← item_or_dash (select_one sel_og_longitude page) "content";
   mret (record_of self url page external_link name latitude longitude)).
Proof. reflexivity. Qed.

Lemma property_data_Ok self url page r :
  property_data self url page = Ok r ->
  ∃ external_link name latitude longitude,
    item_or_dash (select_one sel_external_link page) "href" = Ok external_link ∧
    item_or_dash (select_one sel_og_title page) "content" = Ok name ∧
    item_or_dash (select_one sel_og_latitude page) "content" = Ok latitude ∧
    item_or_dash (select_one sel_og_longitude page) "content" = Ok longitude ∧
    r = record_of self url page external_link name latitude longitude.
Proof.
  rewrite property_data_unfold.
  destruct (item_or_dash (select_one sel_external_link page) "href") as [e|] eqn:E1;
    [|discriminate].
  destruct (item_or_dash (select_one sel_og_title page) "content") as [n|] eqn:E2;
    [|discriminate].
  destruct (item_or_dash (select_one sel_og_latitude page) "content") as [la|] eqn:E3;
    [|discriminate].
  destruct (item_or_dash (select_one sel_og_longitude page) "content") as [lo|] eqn:E4;
    [|discriminate].
  cbn. intros [= <-]. exists e, n, la, lo. auto.
Qed.

Lemma item_or_dash_Ok o key : read_ok o key ↔ ∃ v, item_or_dash o key = Ok v.
Proof.
  destruct o as [e|]; simpl; [|split; eauto].
  unfold getitem. destruct (assoc key (attrs_of e)) as [v|].
  - split; eauto.
  - split; [intros [? ?]; discriminate|intros [? ?]; discriminate].
Qed.

Lemma property_data_returns self url page :
  attribute_reads_ok page ↔ ∃ r, property_data self url page = Ok r.
Proof.
  split.
  - intros (H1 & H2 & H3 & H4).
    apply item_or_dash_Ok in H1 as [e E1], H2 as [n E2], H3 as [la E3], H4 as [lo E4].
    rewrite property_data_unfold, E1, E2, E3, E4. cbn. eauto.
  - intros [r (e & n & la & lo & E1 & E2 & E3 & E4 & _)%property_data_Ok].
    repeat split; apply item_or_dash_Ok; eauto.
Qed.

(** The only exception [property_data] raises is a [KeyError]. *)
Lemma property_data_raises self url page e :
  property_data self url page = Raise e -> e = KeyError "href" ∨ e = KeyError "content".
Proof.
  rewrite property_data_unfold.
  assert (G : ∀ o k v, item_or_dash o k = Raise v -> v = KeyError k).
  { intros [n|] k v; simpl; [|discriminate]. unfold getitem.
    destruct (assoc k (attrs_of n)); [discriminate|]. congruence. }
  destruct (item_or_dash (select_one sel_external_link page) "href") eqn:E1;
    [|cbn; intros [= <-]; left; eauto].
  destruct (item_or_dash (select_one sel_og_title page) "content") eqn:E2;
    [|cbn; intros [= <-]; right; eauto].
  destruct (item_or_dash (select_one sel_og_latitude page) "content") eqn:E3;
    [|cbn; intros [= <-]; right; eauto].
  destruct (item_or_dash (select_one sel_og_longitude page) "content") eqn:E4;
    [|cbn; intros [= <-]; right; eauto].
  cbn. discriminate.
Qed.

(** C8: in every extracted record the top-level "Sale Price" is the
    "Sale Price" entry of the "more info" mapping, and the top-level
    "Rent Price" is its "Rental Price" entry. *)
Theorem prices_mirror_more_information self url page r :
  property_data self url page = Ok r ->
  PropertyData.more_information r !! "Sale Price" = Some (PropertyData.Sale_Price r) ∧
  PropertyData.more_information r !! "Rental Price" = Some (PropertyData.Rent_Price r).
Proof.
  intros (e & n & la & lo & _ & _ & _ & _ & ->)%property_data_Ok.
  split; reflexivity.
Qed.

Lemma prices_mirror_more_information_witness :
  ∃ r, property_data init_default "https://www.barbadospropertysearch.com/p/1" Demo.p1 = Ok r ∧
       PropertyData.more_information r !! "Sale Price" = Some "-" ∧
       PropertyData.more_information r !! "Rental Price" = Some "$1,000".
Proof.
  eexists. split; [reflexivity|].
  exact (prices_mirror_more_information init_default
           "https://www.barbadospropertysearch.com/p/1" Demo.p1 _ eq_refl).
Defined.

(** C10: the "more info" mapping of every extracted record has exactly the
    keys "Rental Price", "Property Reference", "Sale Price" and
    "External Link"; the first three are bound to the text of the matched
    element or to "-", the last to the href of the matched anchor or to
    "-". *)
Theorem more_information_keys self url page r :
  property_data self url page = Ok r ->
  dom (PropertyData.more_information r)
    = ({["Rental Price"; "Property Reference"; "Sale Price"; "External Link"]} : gset string) ∧
  PropertyData.more_information r !! "Rental Price"
    = Some (text_or_dash (select_one sel_rental_price page)) ∧
  PropertyData.more_information r !! "Property Reference"
    = Some (text_or_dash (select_one sel_property_reference page)) ∧
  PropertyData.more_information r !! "Sale Price"
    = Some (text_or_dash (select_one sel_sale_price page)) ∧
  ∃ link, PropertyData.more_information r !! "External Link" = Some link ∧
          item_or_dash (select_one sel_external_link page) "href" = Ok link.
Proof.
  intros (e & n & la & lo & E & _ & _ & _ & ->)%property_data_Ok.
  split; [|repeat split; try reflexivity; exists e; split; [reflexivity|exact E]].
  cbn. rewrite !dom_insert_L, dom_empty_L. set_solver.
Qed.

Lemma more_information_keys_witness :
  ∃ r, property_data init_default "https://www.barbadospropertysearch.com/p/2" Demo.p2 = Ok r ∧
       dom (PropertyData.more_information r)
       = ({["Rental Price"; "Property Reference"; "Sale Price"; "External Link"]} : gset string).
Proof.
  eexists. split; [reflexivity|].
  exact (proj1 (more_information_keys init_default
           "https://www.barbadospropertysearch.com/p/2" Demo.p2 _ eq_refl)).
Defined.

(** ** What [select] finds *)

Lemma find_all_node_tag p anc name cls attrs kids :
  find_all_node p anc (Tag name cls attrs kids) =
  (if p anc (Element name cls attrs) then [Tag name cls attrs kids] else []) ++
  flat_map (find_all_node p (Element name cls attrs :: anc)) kids.
Proof.
  reflexivity.
Qed.

Lemma elem_of_flat_map {A B} (f : A -> list B) l y :
  y ∈ flat_map f l ↔ ∃ x, x ∈ l ∧ y ∈ f x.
Proof.
  rewrite list_elem_of_In, in_flat_map.
  split; intros (x & H1 & H2); exists x; rewrite ?list_elem_of_In in *; auto.
Qed.

Lemma located_weaken anc k l anc' m :
  located anc [k] anc' m -> k ∈ l -> located anc l anc' m.
Proof.
  intros Hl Hk. inversion Hl as [? ? ? ? ? ? H|? ? ? ? ? ? ? ? H H']; subst;
    apply list_elem_of_singleton in H as <-.
  - constructor. exact Hk.
  - eapply located_below; eauto.
Qed.

Lemma find_all_node_located p n :
  ∀ anc m, m ∈ find_all_node p anc n ->
    ∃ anc', located anc [n] anc' m ∧ p anc' (element_of m) = true.
Proof.
  induction n as [s|name cls attrs kids IH] using node_rect_forall; intros anc m.
  - cbn. intros H. inversion H.
  - rewrite find_all_node_tag, elem_of_app. intros [H|H].
    + destruct (p anc (Element name cls attrs)) eqn:E; [|inversion H].
      apply list_elem_of_singleton in H as ->.
      exists anc. split; [constructor; apply list_elem_of_here|exact E].
    + apply elem_of_flat_map in H as (k & Hk & Hm).
      rewrite Forall_forall in IH.
      destruct (IH k Hk _ _ Hm) as (anc' & Hl & Hp).
      exists anc'. split; [|exact Hp].
      eapply located_below; [apply list_elem_of_here|].
      eapply located_weaken; eauto.
Qed.

Lemma located_find_all p anc l anc' m :
  located anc l anc' m -> p anc' (element_of m) = true ->
  m ∈ flat_map (find_all_node p anc) l.
Proof.
  induction 1 as [anc l name cls attrs kids Hin
                 |anc l name cls attrs kids anc' n Hin Hl IH]; intros Hp.
  - apply elem_of_flat_map. eexists; split; [exact Hin|].
    rewrite find_all_node_tag, elem_of_app. left.
    change (element_of (Tag name cls attrs kids)) with (Element name cls attrs) in Hp.
    rewrite Hp. apply list_elem_of_here.
  - apply elem_of_flat_map. eexists; split; [exact Hin|].
    rewrite find_all_node_tag, elem_of_app. right. auto.
Qed.

(** [find_all] returns exactly the tags of the forest that satisfy [p]. *)
Lemma elem_of_find_all p l m :
  m ∈ find_all p l ↔ ∃ anc, located [] l anc m ∧ p anc (element_of m) = true.
Proof.
  unfold find_all. split.
  - intros (k & Hk & Hm)%elem_of_flat_map.
    destruct (find_all_node_located _ _ _ _ Hm) as (anc & Hl & Hp).
    exists anc. split; [|exact Hp]. eapply located_weaken; eauto.
  - intros (anc & Hl & Hp). eapply located_find_all; eauto.
Qed.

Lemma elem_of_select sel l m :
  m ∈ select sel l ↔ ∃ anc, located [] l anc m ∧ matches sel anc (element_of m) = true.
Proof. apply elem_of_find_all. Qed.

Lemma head_None_find_all p page :
  head (find_all p page) = None ↔
  ∀ anc n, tag_of page anc n -> p anc (element_of n) = false.
Proof.
  unfold tag_of. split.
  - intros H anc n Hl.
    destruct (p anc (element_of n)) eqn:E; [|reflexivity].
    assert (Hin : n ∈ find_all p page) by (apply elem_of_find_all; eauto).
    destruct (find_all p page); [inversion Hin|discriminate].
  - intros H. destruct (find_all p page) as [|m l] eqn:E; [reflexivity|].
    assert (Hin : m ∈ find_all p page) by (rewrite E; apply list_elem_of_here).
    apply elem_of_find_all in Hin as (anc & Hl & Hp).
    rewrite (H _ _ Hl) in Hp. discriminate.
Qed.

(** [select_one] finds nothing exactly when no tag of the document
    matches. *)
Lemma select_one_None sel page :
  select_one sel page = None ↔
  ∀ anc n, tag_of page anc n -> matches sel anc (element_of n) = false.
Proof. apply head_None_find_all. Qed.

(** What [select_one] returns is a tag of the document that matches. *)
Lemma select_one_Some sel page m :
  select_one sel page = Some m ->
  ∃ anc, tag_of page anc m ∧ matches sel anc (element_of m) = true.
Proof.
  unfold select_one. intros H. apply elem_of_select.
  destruct (select sel page); [discriminate|]. injection H as ->.
  apply list_elem_of_here.
Qed.

(** The same for [find]. *)
Lemma find_div_None cls page :
  find_div cls page = None ↔
  ∀ anc n, tag_of page anc n -> div_with_class cls anc (element_of n) = false.
Proof. apply head_None_find_all. Qed.

(** ** The address *)

Lemma match_ancestors_nil anc : match_ancestors [] anc = true.
Proof. destruct anc; reflexivity. Qed.

Lemma matches_maps_anchor anc n :
  matches sel_maps_anchor anc (element_of n) = true ↔ maps_anchor n.
Proof.
  unfold maps_anchor.
  change (matches sel_maps_anchor anc (element_of n)) with
    ((String.eqb "a" (el_name (element_of n)) && true &&
      (match assoc "href" (attrs_of n) with
       | Some v => str_in "maps.google.com" v
       | None => false
       end && true)) && match_ancestors [] anc).
  rewrite match_ancestors_nil, !andb_true_r.
  destruct (assoc "href" (attrs_of n)) as [v|].
  - rewrite andb_true_iff, String.eqb_eq. split.
    + intros [<- H]. split; [reflexivity|eauto].
    + intros [-> (h & [= <-] & H)]. auto.
  - rewrite andb_false_r. split; [discriminate|].
    intros [_ (h & [=] & _)].
Qed.

Lemma maps_anchor_found page :
  (∃ anc n, tag_of page anc n ∧ maps_anchor n) ->
  ∃ a, select_one sel_maps_anchor page = Some a ∧ maps_anchor a.
Proof.
  intros (anc & n & Hl & Hm).
  destruct (select_one sel_maps_anchor page) as [a|] eqn:E.
  - exists a. split; [reflexivity|].
    apply select_one_Some in E as (anc' & _ & H). eapply matches_maps_anchor, H.
  - rewrite select_one_None in E. apply (matches_maps_anchor anc) in Hm.
    rewrite (E _ _ Hl) in Hm. discriminate.
Qed.

Lemma no_maps_anchor page :
  (∀ anc n, tag_of page anc n -> ¬ maps_anchor n) ->
  select_one sel_maps_anchor page = None.
Proof.
  intros H. apply select_one_None. intros anc n Hl.
  destruct (matches sel_maps_anchor anc (element_of n)) eqn:E; [|reflexivity].
  apply matches_maps_anchor in E. destruct (H _ _ Hl E).
Qed.

(** C7: the address of a listing page.  If the page has an anchor whose
    href contains "maps.google.com", the address is the stripped text of
    the first such anchor; otherwise, if it has a [.field-item] below a
    [div.field-name-location-ds-], the address is the stripped text of the
    first one; if it has neither, the address is "-". *)
Theorem address_fallback self url page r :
  property_data self url page = Ok r ->
  ((∃ anc n, tag_of page anc n ∧ maps_anchor n) ->
     ∃ a, select_one sel_maps_anchor page = Some a ∧ maps_anchor a ∧
          PropertyData.address r = get_text_strip a) ∧
  ((∀ anc n, tag_of page anc n -> ¬ maps_anchor n) ->
   (∃ anc n, tag_of page anc n ∧ location_item anc n) ->
     ∃ f, select_one sel_location page = Some f ∧
          PropertyData.address r = get_text_strip f) ∧
  ((∀ anc n, tag_of page anc n -> ¬ maps_anchor n) ->
   (∀ anc n, tag_of page anc n -> ¬ location_item anc n) ->
     PropertyData.address r = "-").
Proof.
  intros (e & n & la & lo & _ & _ & _ & _ & ->)%property_data_Ok.
  cbn [record_of PropertyData.address]. repeat split.
  - intros H. destruct (maps_anchor_found page H) as (a & E & Ha).
    exists a. rewrite E. auto.
  - intros H1%no_maps_anchor (anc & m & Hl & Hm). rewrite H1.
    destruct (select_one sel_location page) as [f|] eqn:E; [eauto|].
    rewrite select_one_None in E. unfold location_item in Hm.
    rewrite (E _ _ Hl) in Hm. discriminate.
  - intros H1%no_maps_anchor H2. rewrite H1.
    assert (E : select_one sel_location page = None).
    { apply select_one_None. intros anc m Hl.
      destruct (matches sel_location anc (element_of m)) eqn:E; [|reflexivity].
      destruct (H2 _ _ Hl E). }
    rewrite E. reflexivity.
Qed.

Lemma address_fallback_witness :
  ∃ r, property_data init_default "https://www.barbadospropertysearch.com/p/2" Demo.p2 = Ok r ∧
       PropertyData.address r = "Bridgetown".
Proof.
  eexists. split; [reflexivity|].
  destruct (address_fallback init_default
              "https://www.barbadospropertysearch.com/p/2" Demo.p2 _ eq_refl)
    as [H _].
  destruct H as (a & Ea & _ & ->).
  - eexists _, _. split.
    + eapply located_below; [apply list_elem_of_here|].
      eapply located_below; [apply list_elem_of_further, list_elem_of_here|].
      apply located_here, list_elem_of_here.
    + split; [reflexivity|]. eexists. split; reflexivity.
  - injection Ea as <-. reflexivity.
Defined.

(** ** The characteristics *)

Lemma fold_left_insert_pairs (l : list (string * string)) :
  fold_left (fun (d : gmap string string) kv => <[kv.1 := kv.2]> d) l ∅
  = list_to_map (reverse l).
Proof.
  induction l as [|x l IH] using rev_ind; [reflexivity|].
  rewrite fold_left_app, reverse_snoc, IH. reflexivity.
Qed.

Lemma characteristics_of_positional labels items :
  characteristics_of labels items
  = positional_mapping (map label_key labels) (map get_text_strip items).
Proof.
  unfold characteristics_of, positional_mapping.
  rewrite <- fold_left_insert_pairs.
  assert (G : ∀ (d : gmap string string),
    fold_left
      (fun d (p : node * node) =>
         let key := replace ":" "" (get_text_strip p.1) in
         let value := get_text_strip p.2 in <[key := value]> d)
      (zip labels items) d
    = fold_left (fun (d : gmap string string) kv => <[kv.1 := kv.2]> d)
        (zip (map label_key labels) (map get_text_strip items)) d).
  { revert items. induction labels as [|l labels IH]; intros [|i items] d;
      try reflexivity.
    cbn. apply IH. }
  apply G.
Qed.

Lemma list_to_map_first (l1 l2 : list (string * string)) k v :
  k ∉ l1.*1 -> (list_to_map (l1 ++ (k, v) :: l2) : gmap string string) !! k = Some v.
Proof.
  induction l1 as [|[k' v'] l1 IH]; cbn; intros Hk.
  - apply lookup_insert_eq.
  - apply not_elem_of_cons in Hk as [Hne Hk].
    rewrite lookup_insert_ne; [apply IH, Hk|congruence].
Qed.

Lemma zip_keys {A B} (keys : list A) (values : list B) :
  (zip keys values).*1 = take (length values) keys.
Proof.
  revert values. induction keys as [|k keys IH]; intros [|v values]; cbn;
    try reflexivity.
  f_equal. apply IH.
Qed.

(** A key is bound to the value at its position unless a later pair has
    the same key. *)
Lemma positional_mapping_lookup keys values i k v :
  keys !! i = Some k -> values !! i = Some v ->
  (∀ j, i < j -> j < length values -> keys !! j ≠ Some k) ->
  positional_mapping keys values !! k = Some v.
Proof.
  intros Hk Hv Hlater. unfold positional_mapping.
  assert (Hz : zip keys values !! i = Some (k, v)).
  { apply lookup_zip_with_Some. eauto. }
  rewrite <- (take_drop_middle _ _ _ Hz), reverse_app, reverse_cons, <- app_assoc.
  apply list_to_map_first.
  rewrite fmap_reverse, elem_of_reverse, list_elem_of_fmap.
  intros ([k' v'] & -> & Hin).
  apply list_elem_of_lookup in Hin as [j Hj].
  rewrite lookup_drop in Hj.
  apply lookup_zip_with_Some in Hj as (a & b & [= <- <-] & Ha & Hb).
  apply (Hlater (S i + j)); [lia| |exact Ha].
  apply lookup_lt_Some in Hb. exact Hb.
Qed.

(** C9: on a page with a "further information" section the
    characteristics are the labels ([.field-label]) and items
    ([.field-item]) of the section paired by position, each label's
    stripped text without colons bound to the stripped text of the item at
    the same position (the last pair of a key counts); a page without the
    section gives the empty mapping. *)
Theorem characteristics_positional self url page r :
  property_data self url page = Ok r ->
  match select_one sel_further_information page with
  | Some further_info_div =>
      let field_labels := select sel_field_label (contents_of further_info_div) in
      let field_items := select sel_field_item (contents_of further_info_div) in
      PropertyData.characteristics r
        = positional_mapping (map label_key field_labels) (map get_text_strip field_items) ∧
      dom (PropertyData.characteristics r)
        = list_to_set (map label_key (take (length field_items) field_labels)) ∧
      ∀ i label item,
        field_labels !! i = Some label -> field_items !! i = Some item ->
        (∀ j later, i < j -> j < length field_items ->
           field_labels !! j = Some later -> label_key later ≠ label_key label) ->
        PropertyData.characteristics r !! label_key label = Some (get_text_strip item)
  | None => PropertyData.characteristics r = ∅
  end.
Proof.
  intros (e & n & la & lo & _ & _ & _ & _ & ->)%property_data_Ok.
  cbn [record_of PropertyData.characteristics]. unfold page_characteristics.
  destruct (select_one sel_further_information page) as [d|]; [|reflexivity].
  cbn zeta. rewrite characteristics_of_positional.
  split; [reflexivity|]. split.
  - unfold positional_mapping. rewrite dom_list_to_map_L.
    rewrite fmap_reverse, zip_keys, length_map, <- fmap_take.
    apply set_eq. intros x.
    rewrite !elem_of_list_to_set, elem_of_reverse. reflexivity.
  - intros i label item Hl Hi Hlater.
    apply positional_mapping_lookup with (i := i).
    + rewrite list_lookup_fmap, Hl. reflexivity.
    + rewrite list_lookup_fmap, Hi. reflexivity.
    + intros j Hij Hj. rewrite length_map in Hj.
      rewrite list_lookup_fmap.
      destruct (select sel_field_label (contents_of d) !! j) as [later|] eqn:E;
        [|discriminate].
      cbn. intros [= Heq]. exact (Hlater j later Hij Hj E Heq).
Qed.

Lemma characteristics_positional_witness :
  ∃ r, property_data init_default "https://www.barbadospropertysearch.com/p/1" Demo.p1 = Ok r ∧
       PropertyData.characteristics r !! "Land Area" = Some "5000 sqft".
Proof.
  eexists. split; [reflexivity|].
  pose proof (characteristics_positional init_default
                "https://www.barbadospropertysearch.com/p/1" Demo.p1 _ eq_refl) as H.
  destruct (select_one sel_further_information Demo.p1) as [d|] eqn:E;
    [|discriminate E].
  injection E as <-. destruct H as (_ & _ & H).
  refine (H 0 (Tag "div" ["field-label"] [] [Demo.text "Land Area: "])
            (Tag "div" ["field-item"; "even"] [] [Demo.text "5000 sqft"])
            eq_refl eq_refl _).
  intros [|[|j]] later Hij Hj; [lia| |cbn in Hj; lia].
  intros [= <-]. discriminate.
Defined.

(** ** The area *)

(** C2, as the claim states it, fails: a page whose "Land Area" item is
    empty has the key "Land Area" in its characteristics, bound to the empty
    string, and yet its Area is the "Floor Area" value. *)
Lemma area_skips_empty_land_area :
  ∃ r, property_data init_default "https://www.barbadospropertysearch.com/p/4"
         page_empty_land_area = Ok r ∧
       PropertyData.characteristics r !! "Land Area" = Some "" ∧
       PropertyData.Area r = "1200 sqft" ∧
       PropertyData.Area r ≠ "".
Proof.
  eexists. split; [reflexivity|].
  split; [reflexivity|]. split; [reflexivity|]. discriminate.
Qed.

(** C2, amended: the Area is the "Land Area" value if that key is present
    with a value that is not empty; otherwise the "Floor Area" value if that
    key is present; otherwise "N/A". *)
Theorem area_preference self url page r :
  property_data self url page = Ok r ->
  PropertyData.Area r =
    match PropertyData.characteristics r !! "Land Area" with
    | Some (String c land) => String c land
    | _ =>
        match PropertyData.characteristics r !! "Floor Area" with
        | Some floor => floor
        | None => "N/A"
        end
    end.
Proof.
  intros (e & n & la & lo & _ & _ & _ & _ & ->)%property_data_Ok.
  cbn [record_of PropertyData.Area PropertyData.characteristics].
  unfold py_or, dict_get.
  destruct (page_characteristics page !! "Land Area") as [[|c s]|];
    destruct (page_characteristics page !! "Floor Area"); reflexivity.
Qed.

Lemma area_preference_witness :
  ∃ r, property_data init_default "https://www.barbadospropertysearch.com/p/1" Demo.p1 = Ok r ∧
       PropertyData.Area r = "5000 sqft".
Proof.
  eexists. split; [reflexivity|].
  exact (area_preference init_default
           "https://www.barbadospropertysearch.com/p/1" Demo.p1 _ eq_refl).
Defined.

(** The three cases of the specification's example. *)
Lemma area_examples :
  py_or (({["Land Area" := "5000 sqft"]} : gmap string string) !! "Land Area")
        (dict_get {["Land Area" := "5000 sqft"]} "Floor Area" "N/A") = "5000 sqft" ∧
  py_or (({["Floor Area" := "1200 sqft"]} : gmap string string) !! "Land Area")
        (dict_get {["Floor Area" := "1200 sqft"]} "Floor Area" "N/A") = "1200 sqft" ∧
  py_or ((∅ : gmap string string) !! "Land Area") (dict_get ∅ "Floor Area" "N/A") = "N/A".
Proof. repeat split; reflexivity. Qed.

(** ** Missing fields *)

Lemma unmatched_None sel page : select_one sel page = None -> unmatched sel page.
Proof. intros H. unfold unmatched. apply (proj1 (select_one_None sel page) H). Qed.

(** C3, as the claim states it, fails: on a page whose only tag is a
    [meta property="og:title"] without [content], no rental price element is
    matched, and the extractor raises [KeyError] instead of returning a
    record. *)
Lemma missing_field_yet_no_record :
  select_one sel_rental_price page_title_without_content = None ∧
  property_data init_default "https://www.barbadospropertysearch.com/p/5"
    page_title_without_content = Raise (KeyError "content").
Proof. split; reflexivity. Qed.

(** C3, amended: on a listing page where every element matched for the
    external link, the name, the latitude and the longitude carries the
    attribute read from it, the extractor returns a record, and each field
    whose selector matches no element has its sentinel in that record: "-"
    for the scalar fields, the empty list for the amenities, the empty
    mapping for the characteristics. *)
Theorem missing_fields_get_sentinels self url page :
  attribute_reads_ok page ->
  ∃ r, property_data self url page = Ok r ∧
    (unmatched sel_rental_price page ->
       PropertyData.Rent_Price r = "-" ∧
       PropertyData.more_information r !! "Rental Price" = Some "-") ∧
    (unmatched sel_property_reference page ->
       PropertyData.more_information r !! "Property Reference" = Some "-") ∧
    (unmatched sel_sale_price page ->
       PropertyData.Sale_Price r = "-" ∧
       PropertyData.more_information r !! "Sale Price" = Some "-") ∧
    (unmatched sel_external_link page ->
       PropertyData.more_information r !! "External Link" = Some "-") ∧
    (unmatched sel_og_title page -> PropertyData.name r = "-") ∧
    (unmatched sel_og_latitude page -> PropertyData.latitude r = "-") ∧
    (unmatched sel_og_longitude page -> PropertyData.longitude r = "-") ∧
    (unmatched sel_maps_anchor page -> unmatched sel_location page ->
       PropertyData.address r = "-") ∧
    (unmatched sel_property_type page -> PropertyData.property_type r = "-") ∧
    (no_description page -> PropertyData.description r = "-") ∧
    (unmatched sel_further_information page -> PropertyData.characteristics r = ∅) ∧
    (unmatched sel_amenities page -> PropertyData.amenities r = []).
Proof.
  intros Hok.
  destruct (proj1 (property_data_returns self url page) Hok) as [r Hr].
  exists r. split; [exact Hr|].
  apply property_data_Ok in Hr as (e & n & la & lo & E1 & E2 & E3 & E4 & ->).
  unfold unmatched, no_description.
  rewrite <- !select_one_None, <- find_div_None.
  cbn [record_of PropertyData.Rent_Price PropertyData.Sale_Price
    PropertyData.more_information PropertyData.name PropertyData.latitude
    PropertyData.longitude PropertyData.address PropertyData.property_type
    PropertyData.description PropertyData.characteristics PropertyData.amenities].
  split_and!.
  - intros ->. split; reflexivity.
  - intros ->. reflexivity.
  - intros ->. split; reflexivity.
  - intros H. rewrite H in E1. cbn in E1. injection E1 as <-. reflexivity.
  - intros H. rewrite H in E2. cbn in E2. congruence.
  - intros H. rewrite H in E3. cbn in E3. congruence.
  - intros H. rewrite H in E4. cbn in E4. congruence.
  - intros -> ->. reflexivity.
  - intros ->. reflexivity.
  - intros ->. reflexivity.
  - intros H. unfold page_characteristics. rewrite H. reflexivity.
  - intros ->. reflexivity.
Qed.

Lemma missing_fields_get_sentinels_witness :
  ∃ r, property_data init_default "https://www.barbadospropertysearch.com/p/3" Demo.p3 = Ok r ∧
       PropertyData.Rent_Price r = "-" ∧
       PropertyData.address r = "-" ∧
       PropertyData.characteristics r = ∅ ∧
       PropertyData.amenities r = [].
Proof.
  destruct (missing_fields_get_sentinels init_default
              "https://www.barbadospropertysearch.com/p/3" Demo.p3)
    as (r & Hr & H1 & _ & _ & _ & _ & _ & _ & H8 & _ & _ & H11 & H12).
  { repeat split; cbn; eauto. }
  exists r. split; [exact Hr|]. split_and!.
  - apply H1, unmatched_None. reflexivity.
  - apply H8; apply unmatched_None; reflexivity.
  - apply H11, unmatched_None. reflexivity.
  - apply H12, unmatched_None. reflexivity.
Defined.

(** ** The steps of the walk *)

Lemma index_requests_send_index u p :
  index_requests (sent (send (Index_page u) p)) = index_requests (sent p) ++ [u].
Proof. unfold index_requests. cbn. rewrite omap_app. reflexivity. Qed.

Lemma index_requests_send_listing u p :
  index_requests (sent (send (Listing_page u) p)) = index_requests (sent p).
Proof. unfold index_requests. cbn. rewrite omap_app. cbn. apply app_nil_r. Qed.

Lemma listing_requests_send_index u p :
  listing_requests (sent (send (Index_page u) p)) = listing_requests (sent p).
Proof. unfold listing_requests. cbn. rewrite omap_app. cbn. apply app_nil_r. Qed.

Lemma listing_requests_send_listing u p :
  listing_requests (sent (send (Listing_page u) p)) = listing_requests (sent p) ++ [u].
Proof. unfold listing_requests. cbn. rewrite omap_app. reflexivity. Qed.

Lemma property_data_url self url page r :
  property_data self url page = Ok r -> PropertyData.url r = url.
Proof. intros (e & n & la & lo & _ & _ & _ & _ & ->)%property_data_Ok. reflexivity. Qed.

Lemma property_data_transaction_type self url page r :
  property_data self url page = Ok r ->
  PropertyData.transaction_type r = transaction_type self.
Proof. intros (e & n & la & lo & _ & _ & _ & _ & ->)%property_data_Ok. reflexivity. Qed.

(** The two ways [scrape_listing] ends: it raises after the request, or
    it appends the record of the page. *)
Lemma scrape_listing_cases web url p :
  (∃ e, scrape_listing web url p = (send (Listing_page url) p, Raised e) ∧
        (web url = None ∨
         ∃ page, web url = Some page ∧ property_data (self p) url page = Raise e)) ∨
  (∃ page r, web url = Some page ∧ property_data (self p) url page = Ok r ∧
     scrape_listing web url p
       = (update (append_data r) (send (Listing_page url) p), Returned)).
Proof.
  unfold scrape_listing. destruct (web url) as [page|]; [|left; eauto].
  change (self (send (Listing_page url) p)) with (self p).
  destruct (property_data (self p) url page) as [r|e] eqn:E.
  - right. eauto.
  - left. exists e. eauto.
Qed.

(** One turn of the loop of [scrape_page]. *)
Lemma scrape_elements_cons web element rest p :
  scrape_elements web (element :: rest) p =
  match getitem element "href" with
  | Raise e => (p, Raised e)
  | Ok href =>
      let property_url := base_url (self p) +:+ href in
      if decide (property_url ∈ scraped_urls (self p))
      then scrape_elements web rest p
      else
        and_then
          (scrape_listing web property_url (update (add_scraped property_url) p))
          (scrape_elements web rest)
  end.
Proof. reflexivity. Qed.

Lemma extends_refl p : extends p p.
Proof. split; reflexivity. Qed.

Lemma extends_trans p q r : extends p q -> extends q r -> extends p r.
Proof.
  intros [] []. split; try congruence; etrans; eauto.
Qed.

Lemma extends_send r p : extends p (send r p).
Proof. split; try reflexivity. cbn. apply prefix_app_r. reflexivity. Qed.

Lemma extends_add_scraped u p : extends p (update (add_scraped u) p).
Proof. split; try reflexivity. cbn. set_solver. Qed.

Lemma extends_append_data r p : extends p (update (append_data r) p).
Proof. split; try reflexivity. cbn. apply prefix_app_r. reflexivity. Qed.

Lemma scrape_listing_extends web url p :
  extends p (scrape_listing web url p).1.
Proof.
  destruct (scrape_listing_cases web url p) as [(e & -> & _)|(page & r & _ & _ & ->)]; cbn.
  - apply extends_send.
  - eapply extends_trans; [apply extends_send|apply extends_append_data].
Qed.

Lemma and_then_extends p r k :
  extends p r.1 -> (∀ q, extends q (k q).1) -> extends p (and_then r k).1.
Proof.
  intros H1 H2. unfold and_then. destruct r.2; [|exact H1..].
  eapply extends_trans; [exact H1|apply H2].
Qed.

Lemma scrape_elements_extends web els :
  ∀ p, extends p (scrape_elements web els p).1.
Proof.
  induction els as [|el els IH]; intros p; [apply extends_refl|].
  rewrite scrape_elements_cons.
  destruct (getitem el "href") as [href|e]; [|apply extends_refl].
  cbn zeta. case_decide; [apply IH|].
  eapply extends_trans; [apply extends_add_scraped|].
  apply and_then_extends; [apply scrape_listing_extends|apply IH].
Qed.

Lemma scrape_page_extends depth web :
  ∀ url p, extends p (scrape_page depth web url p).1.
Proof.
  induction depth as [|depth IH]; intros url p; [apply extends_refl|].
  cbn [scrape_page].
  eapply extends_trans; [apply (extends_send (Index_page url))|].
  destruct (web url) as [page|]; [|apply extends_refl].
  apply and_then_extends; [apply scrape_elements_extends|].
  intros q. destruct (select_one sel_pager_next page) as [el|]; [|apply extends_refl].
  destruct (getitem el "href"); [apply IH|apply extends_refl].
Qed.

(** ** The transaction type *)

Lemma and_then_preserves (P : process -> Prop) r k :
  P r.1 -> (∀ q, P q -> P (k q).1) -> P (and_then r k).1.
Proof.
  intros H1 H2. unfold and_then. destruct r.2; [|exact H1..]. apply H2, H1.
Qed.

Lemma scrape_listing_typed web url p :
  typed p -> typed (scrape_listing web url p).1.
Proof.
  intros H.
  destruct (scrape_listing_cases web url p) as [(e & -> & _)|(page & r & _ & Hr & ->)].
  - exact H.
  - unfold typed in *. cbn. apply Forall_app. split; [exact H|].
    constructor; [|constructor].
    eapply property_data_transaction_type, Hr.
Qed.

Lemma scrape_elements_typed web els :
  ∀ p, typed p -> typed (scrape_elements web els p).1.
Proof.
  induction els as [|el els IH]; intros p H; [exact H|].
  rewrite scrape_elements_cons.
  destruct (getitem el "href") as [href|e]; [|exact H].
  cbn zeta. case_decide; [apply IH, H|].
  apply and_then_preserves; [|apply IH].
  apply scrape_listing_typed. exact H.
Qed.

Lemma scrape_page_typed depth web :
  ∀ url p, typed p -> typed (scrape_page depth web url p).1.
Proof.
  induction depth as [|depth IH]; intros url p H; [exact H|].
  cbn [scrape_page].
  destruct (web url) as [page|]; [|exact H].
  apply and_then_preserves.
  - apply scrape_elements_typed. exact H.
  - intros q Hq. destruct (select_one sel_pager_next page) as [el|]; [|exact Hq].
    destruct (getitem el "href"); [apply IH, Hq|exact Hq].
Qed.

(** C5: the transaction type is computed when the scraper is created, from
    the start URL alone: "Sale" if the lowercased URL contains "sale", else
    "Rent" if it contains "rent", else [None]; the walk never changes it,
    and every record of the run carries it. *)
Theorem transaction_type_constant depth web start :
  transaction_type (init start)
    = (if str_in "sale" (lower start) then Some "Sale"
       else if str_in "rent" (lower start) then Some "Rent"
       else None) ∧
  transaction_type (self (scrape depth web (init start)).1)
    = transaction_type (init start) ∧
  Forall (fun r => PropertyData.transaction_type r = transaction_type (init start))
         (data (self (scrape depth web (init start)).1)).
Proof.
  split; [reflexivity|]. unfold scrape.
  set (p0 := {| self := init start; sent := [] |}).
  pose proof (scrape_page_extends depth web (start_url (init start)) p0) as He.
  split; [apply He|].
  assert (H0 : typed p0) by constructor.
  pose proof (scrape_page_typed depth web (start_url (init start)) p0 H0) as Ht.
  unfold typed in Ht. rewrite (ext_transaction_type _ _ He) in Ht. exact Ht.
Qed.

Example transaction_type_examples :
  determine_transaction_type "https://www.barbadospropertysearch.com/for-rent" = Some "Rent" ∧
  determine_transaction_type "https://www.barbadospropertysearch.com/For-Sale" = Some "Sale" ∧
  determine_transaction_type "https://wholesale.example/for-rent" = Some "Sale" ∧
  determine_transaction_type "https://www.barbadospropertysearch.com/land" = None.
Proof. repeat split; reflexivity. Qed.

(** ** At most one extraction per URL *)

Lemma Returned_or_not (o : outcome) : o = Returned ∨ o ≠ Returned.
Proof. destruct o; [left; reflexivity|right; discriminate..]. Qed.

Lemma and_then_Returned r k :
  (and_then r k).2 = Returned -> r.2 = Returned ∧ and_then r k = k r.1.
Proof.
  unfold and_then. destruct r.2 eqn:E; [auto|rewrite E; discriminate..].
Qed.

Lemma and_then_not_Returned r k :
  r.2 ≠ Returned -> and_then r k = r.
Proof. unfold and_then. destruct r.2; congruence. Qed.

(** The call of [scrape_listing] in the loop: the URL is new and has just
    been added to the visited set. *)
Lemma scrape_listing_fresh web u p :
  consistent p -> u ∉ scraped_urls (self p) ->
  let r := scrape_listing web u (update (add_scraped u) p) in
  consistent r.1 ∧
  (settled p -> r.2 = Returned -> settled r.1) ∧
  index_requests (sent r.1) = index_requests (sent p) ∧
  u ∈ scraped_urls (self r.1).
Proof.
  intros [Hnd Hset] Hu.
  assert (Hsent : ∀ q, sent q = sent (update (add_scraped u) p) ++ [Listing_page u] ->
            scraped_urls (self q) = {[u]} ∪ scraped_urls (self p) ->
            consistent q ∧ index_requests (sent q) = index_requests (sent p) ∧
            listing_requests (sent q) = listing_requests (sent p) ++ [u]).
  { intros q Hq Hs.
    assert (Hl : listing_requests (sent q) = listing_requests (sent p) ++ [u]).
    { rewrite Hq. unfold listing_requests. rewrite omap_app. reflexivity. }
    split; [|split; [|exact Hl]].
    - split.
      + rewrite Hl. apply NoDup_app. split; [exact Hnd|]. split.
        * intros x Hx ->%list_elem_of_singleton. apply Hu, Hset, Hx.
        * apply NoDup_singleton.
      + intros x. rewrite Hs, Hl, elem_of_union, elem_of_app, Hset,
          elem_of_singleton, list_elem_of_singleton. tauto.
    - rewrite Hq. unfold index_requests. rewrite omap_app. cbn. apply app_nil_r. }
  cbn zeta.
  destruct (scrape_listing_cases web u (update (add_scraped u) p))
    as [(e & -> & _)|(page & r & _ & Hr & ->)]; cbn [fst snd].
  - destruct (Hsent (send (Listing_page u) (update (add_scraped u) p)))
      as (H1 & H2 & _); [reflexivity..|].
    split_and!; [exact H1|discriminate|exact H2|].
    cbn. apply elem_of_union_l, elem_of_singleton. reflexivity.
  - destruct (Hsent (update (append_data r)
                       (send (Listing_page u) (update (add_scraped u) p))))
      as (H1 & H2 & H3); [reflexivity..|].
    split_and!; [exact H1| |exact H2|].
    2:{ cbn. apply elem_of_union_l, elem_of_singleton. reflexivity. }
    intros Hst _. unfold settled in *. rewrite H3, <- Hst.
    unfold record_urls. cbn. rewrite map_app. cbn.
    rewrite (property_data_url _ _ _ _ Hr). reflexivity.
Qed.

Lemma scrape_elements_consistent web els :
  ∀ p, consistent p ->
    let r := scrape_elements web els p in
    consistent r.1 ∧
    (settled p -> r.2 = Returned -> settled r.1) ∧
    index_requests (sent r.1) = index_requests (sent p) ∧
    (r.2 = Returned -> ∀ el href, el ∈ els -> getitem el "href" = Ok href ->
       base_url (self p) +:+ href ∈ scraped_urls (self r.1)).
Proof.
  induction els as [|el els IH]; intros p Hp; cbn zeta.
  - cbn. split_and!; auto. intros _ el href Hel. inversion Hel.
  - rewrite scrape_elements_cons.
    destruct (getitem el "href") as [href|e] eqn:Eh; cbn zeta.
    2:{ cbn. split_and!; auto; discriminate. }
    case_decide as Hin.
    + destruct (IH p Hp) as (H1 & H2 & H3 & H4).
      split_and!; auto. intros Hret el' href' Hel Hh.
      apply elem_of_cons in Hel as [->|Hel]; [|eauto].
      assert (href' = href) as -> by congruence.
      apply (ext_scraped_urls _ _ (scrape_elements_extends web els p)), Hin.
    + set (u := base_url (self p) +:+ href) in *.
      destruct (scrape_listing_fresh web u p Hp Hin) as (H1 & H2 & H3 & H4).
      set (r := scrape_listing web u (update (add_scraped u) p)) in *.
      destruct (Returned_or_not r.2) as [Hr|Hr].
      * assert (E : and_then r (scrape_elements web els) = scrape_elements web els r.1).
        { unfold and_then. rewrite Hr. reflexivity. }
        rewrite E. destruct (IH r.1 H1) as (G1 & G2 & G3 & G4).
        assert (Hb : base_url (self r.1) = base_url (self p)).
        { pose proof (scrape_listing_extends web u (update (add_scraped u) p)) as He.
          apply (ext_base_url _ _ He). }
        split_and!; [exact G1|auto|congruence|].
        intros Hret el' href' Hel Hh.
        apply elem_of_cons in Hel as [->|Hel].
        -- assert (href' = href) as -> by congruence.
           apply (ext_scraped_urls _ _ (scrape_elements_extends web els r.1)), H4.
        -- rewrite <- Hb. eauto.
      * rewrite (and_then_not_Returned _ _ Hr).
        split_and!; [exact H1|tauto|exact H3|tauto].
Qed.

Lemma scrape_page_consistent depth web :
  ∀ url p, consistent p ->
    let r := scrape_page depth web url p in
    consistent r.1 ∧
    (settled p -> r.2 = Returned -> settled r.1) ∧
    (r.2 = Returned -> ∀ page_url, page_url ∈ index_requests (sent r.1) ->
       page_url ∈ index_requests (sent p) ∨
       ∀ u, discoverable web (self p) page_url u -> u ∈ scraped_urls (self r.1)).
Proof.
  induction depth as [|depth IH]; intros url p Hp; cbn zeta.
  - cbn. split_and!; try done.
  - cbn [scrape_page].
    set (p1 := send (Index_page url) p).
    assert (Hp1 : consistent p1).
    { destruct Hp as [Hnd Hset]. split; unfold p1.
      - rewrite listing_requests_send_index. exact Hnd.
      - intros u. rewrite listing_requests_send_index. apply Hset. }
    assert (Hs1 : settled p -> settled p1).
    { unfold settled, p1. rewrite listing_requests_send_index. auto. }
    destruct (web url) as [page|] eqn:Ew.
    2:{ cbn. split_and!; auto; discriminate. }
    destruct (scrape_elements_consistent web (select sel_listing_links page) p1 Hp1)
      as (H1 & H2 & H3 & H4).
    set (r := scrape_elements web (select sel_listing_links page) p1) in *.
    destruct (Returned_or_not r.2) as [Hr|Hr].
    2:{ rewrite (and_then_not_Returned _ _ Hr). split_and!; [exact H1|tauto|tauto]. }
    unfold and_then. rewrite Hr.
    assert (Here : ∀ page_url, page_url ∈ index_requests (sent r.1) ->
              page_url ∈ index_requests (sent p) ∨
              ∀ u, discoverable web (self p) page_url u ->
                   u ∈ scraped_urls (self r.1)).
    { intros page_url. rewrite H3. unfold p1.
      rewrite index_requests_send_index, elem_of_app, list_elem_of_singleton.
      intros [Hold| ->]; [left; exact Hold|right].
      intros u (page' & el & href & Ew' & Hel & Hh & ->).
      assert (page' = page) as -> by congruence.
      apply (H4 Hr el href Hel Hh). }
    destruct (select_one sel_pager_next page) as [next|].
    2:{ cbn. split_and!; auto. }
    destruct (getitem next "href") as [href|e].
    2:{ cbn. split_and!; auto; discriminate. }
    assert (Hb : base_url (self r.1) = base_url (self p)).
    { apply (ext_base_url _ _
               (extends_trans _ _ _ (extends_send (Index_page url) p)
                  (scrape_elements_extends web _ p1))). }
    destruct (IH (base_url (self r.1) +:+ href) r.1 H1) as (G1 & G2 & G3).
    set (r' := scrape_page depth web (base_url (self r.1) +:+ href) r.1) in *.
    split_and!; [exact G1|auto|].
    intros Hret page_url Hin.
    destruct (G3 Hret page_url Hin) as [Hold|Hnew].
    + destruct (Here page_url Hold) as [?|Hd]; [left; assumption|right].
      intros u Hu.
      apply (ext_scraped_urls _ _ (scrape_page_extends depth web _ r.1)), Hd, Hu.
    + right. intros u (page' & el & href' & Ew' & Hel & Hh & ->).
      apply Hnew. exists page', el, href'. rewrite Hb. auto.
Qed.

Lemma filter_absent {A} (f : A -> string) (l : list A) (x : string) :
  x ∉ map f l -> filter (fun r => f r = x) l = [].
Proof.
  induction l as [|a l IH]; cbn [map]; intros Hx; [reflexivity|].
  apply not_elem_of_cons in Hx as [Hne Hx].
  rewrite filter_cons_False; [apply IH, Hx|congruence].
Qed.

Lemma filter_unique {A} (f : A -> string) (l : list A) (x : string) :
  NoDup (map f l) -> x ∈ map f l ->
  length (filter (fun r => f r = x) l) = 1.
Proof.
  induction l as [|a l IH]; cbn [map]; intros Hnd Hin; [inversion Hin|].
  apply NoDup_cons in Hnd as [Ha Hnd].
  destruct (decide (f a = x)) as [E|E].
  - rewrite filter_cons_True by exact E.
    rewrite filter_absent by (rewrite <- E; exact Ha). reflexivity.
  - rewrite filter_cons_False by exact E.
    apply IH; [exact Hnd|].
    apply elem_of_cons in Hin as [Hx|Hin]; [congruence|exact Hin].
Qed.

(** C1: in every run no listing URL is requested twice, and every URL
    whose extraction was attempted is in the visited set, whether or not the
    extraction succeeded (the URL is added to the set, then
    [scrape_listing] is called); when the walk returns, a URL that is the
    target of listing links of two different index pages of the walk has
    exactly one record in the collection. *)
Theorem listing_extracted_once depth web start :
  let r := scrape depth web (init start) in
  NoDup (listing_requests (sent r.1)) ∧
  (∀ u, u ∈ listing_requests (sent r.1) -> u ∈ scraped_urls (self r.1)) ∧
  (∀ p element rest href,
     getitem element "href" = Ok href ->
     base_url (self p) +:+ href ∉ scraped_urls (self p) ->
     ∃ q, base_url (self p) +:+ href ∈ scraped_urls (self q) ∧ sent q = sent p ∧
          scrape_elements web (element :: rest) p
          = and_then (scrape_listing web (base_url (self p) +:+ href) q)
                     (scrape_elements web rest)) ∧
  (r.2 = Returned ->
   ∀ u page1 page2,
     page1 ≠ page2 ->
     page1 ∈ index_requests (sent r.1) ->
     page2 ∈ index_requests (sent r.1) ->
     discoverable web (init start) page1 u ->
     discoverable web (init start) page2 u ->
     length (records_for u (self r.1)) = 1).
Proof.
  cbn zeta. unfold scrape.
  set (p0 := {| self := init start; sent := [] |}).
  assert (H0 : consistent p0).
  { split; [constructor|]. intros u. cbn. set_solver. }
  destruct (scrape_page_consistent depth web (start_url (init start)) p0 H0)
    as ((Hnd & Hset) & Hst & Hdisc).
  split_and!.
  - exact Hnd.
  - intros u. apply Hset.
  - intros p element rest href Hh Hnew.
    exists (update (add_scraped (base_url (self p) +:+ href)) p).
    split_and!; [cbn; apply elem_of_union_l, elem_of_singleton; reflexivity
                |reflexivity|].
    rewrite scrape_elements_cons, Hh. cbn zeta.
    case_decide; [contradiction|reflexivity].
  - intros Hret u page1 _ _ Hp1 _ Hd1 _.
    unfold records_for. apply filter_unique.
    + change (NoDup (record_urls (self (scrape_page depth web (start_url (init start)) p0).1))).
      rewrite (Hst eq_refl Hret). exact Hnd.
    + change (u ∈ record_urls (self (scrape_page depth web (start_url (init start)) p0).1)).
      rewrite (Hst eq_refl Hret). apply Hset.
      destruct (Hdisc Hret page1 Hp1) as [Hold|Hnew]; [inversion Hold|].
      apply Hnew, Hd1.
Qed.

Lemma listing_extracted_once_witness :
  length (records_for (Demo.b +:+ "/p/2")
            (self (scrape 5 Demo.web init_default).1)) = 1.
Proof.
  refine (proj2 (proj2 (proj2 (listing_extracted_once 5 Demo.web
            "https://www.barbadospropertysearch.com/for-rent")))
            eq_refl (Demo.b +:+ "/p/2")
            (Demo.b +:+ "/for-rent") (Demo.b +:+ "/for-rent?page=1") _ _ _ _ _).
  - discriminate.
  - apply list_elem_of_here.
  - apply list_elem_of_further, list_elem_of_here.
  - exists Demo.index1, (Tag "a" [] [("href", "/p/2")] [Demo.text "view"]), "/p/2".
    split_and!; try reflexivity. apply list_elem_of_further, list_elem_of_here.
  - exists Demo.index2, (Tag "a" [] [("href", "/p/2")] [Demo.text "view"]), "/p/2".
    split_and!; try reflexivity. apply list_elem_of_here.
Defined.

(** ** Pagination *)



Lemma scrape_elements_index_requests web els :
  ∀ p, index_requests (sent (scrape_elements web els p).1) = index_requests (sent p).
Proof.
  induction els as [|el els IH]; intros p; [reflexivity|].
  rewrite scrape_elements_cons.
  destruct (getitem el "href") as [href|e]; [|reflexivity].
  cbn zeta. case_decide; [apply IH|].
  assert (Hl : index_requests (sent (scrape_listing web (base_url (self p) +:+ href)
                 (update (add_scraped (base_url (self p) +:+ href)) p)).1)
              = index_requests (sent p)).
  { destruct (scrape_listing_cases web (base_url (self p) +:+ href)
                (update (add_scraped (base_url (self p) +:+ href)) p))
      as [(e & -> & _)|(page & r & _ & _ & ->)]; cbn [fst];
      apply (index_requests_send_listing _ (update (add_scraped _) p)). }
  unfold and_then.
  destruct (scrape_listing web _ _).2; [rewrite IH|..]; exact Hl.
Qed.

Lemma scrape_listing_returns web url p page :
  web url = Some page -> attribute_reads_ok page ->
  (scrape_listing web url p).2 = Returned.
Proof.
  intros Hw Hok.
  destruct (proj1 (property_data_returns (self p) url page) Hok) as [r Hr].
  unfold scrape_listing. rewrite Hw.
  change (self (send (Listing_page url) p)) with (self p). rewrite Hr. reflexivity.
Qed.

Lemma scrape_elements_returns web els :
  ∀ p, (∀ el, el ∈ els -> listing_link_ok web (base_url (self p)) el) ->
       (scrape_elements web els p).2 = Returned.
Proof.
  induction els as [|el els IH]; intros p Hok; [reflexivity|].
  rewrite scrape_elements_cons.
  destruct (Hok el) as (href & page & -> & Hw & Hr); [apply list_elem_of_here|].
  assert (Hrest : ∀ el', el' ∈ els -> listing_link_ok web (base_url (self p)) el').
  { intros el' Hel. apply Hok, list_elem_of_further, Hel. }
  cbn zeta. case_decide; [apply IH, Hrest|].
  unfold and_then.
  rewrite (scrape_listing_returns web _ _ page Hw Hr).
  apply IH. intros el' Hel.
  rewrite (ext_base_url _ _ (scrape_listing_extends web _ _)). apply Hrest, Hel.
Qed.


(** A chain with more pages than the recursion limit allows: the walk
    requests as many pages as the limit allows and raises. *)
Lemma scrape_page_chain_too_long web pages :
  ∀ depth u p,
    is_chain web (base_url (self p)) pages ->
    head pages.*1 = Some u ->
    listings_ok web (base_url (self p)) pages ->
    (depth < length pages)%nat ->
    (scrape_page depth web u p).2 = Raised RecursionError ∧
    index_requests (sent (scrape_page depth web u p).1)
      = index_requests (sent p) ++ take depth pages.*1.
Proof.
  induction pages as [|[u0 page] rest IH]; intros depth u p Hc Hu Hok Hdepth;
    [destruct Hc|].
  cbn in Hu. injection Hu as <-.
  destruct depth as [|depth]; [cbn; rewrite app_nil_r; auto|].
  cbn [is_chain] in Hc. destruct Hc as [Hw Hnext].
  cbn [scrape_page]. rewrite Hw.
  set (p1 := send (Index_page u0) p).
  set (r1 := scrape_elements web (select sel_listing_links page) p1).
  assert (Hi1 : index_requests (sent r1.1) = index_requests (sent p) ++ [u0]).
  { unfold r1. rewrite scrape_elements_index_requests. apply index_requests_send_index. }
  assert (Hb : base_url (self r1.1) = base_url (self p)).
  { apply (ext_base_url _ _
             (extends_trans _ _ _ (extends_send (Index_page u0) p)
                (scrape_elements_extends web _ p1))). }
  assert (Hr : r1.2 = Returned).
  { apply scrape_elements_returns. intros el Hel.
    apply (Hok u0 page el); [apply list_elem_of_here|exact Hel]. }
  unfold and_then. rewrite Hr.
  destruct rest as [|[u1 page1] rest]; [cbn in Hdepth; lia|].
  destruct Hnext as [(el & href & -> & -> & ->) Hc].
  rewrite Hb.
  destruct (IH depth (base_url (self p) +:+ href) r1.1) as [G1 G2].
  - rewrite Hb. exact Hc.
  - reflexivity.
  - rewrite Hb. intros u' page' el' Hin. apply (Hok u' page' el').
    apply list_elem_of_further, Hin.
  - cbn in Hdepth |- *. lia.
  - split; [exact G1|]. rewrite G2, Hi1, <- app_assoc. reflexivity.
Qed.










(** * Further properties *)

Local Set Warnings "-clear-no-such-hyp".

(** ** [sanitize_filename] and [save_to_excel] *)

Lemma sanitize_char_idempotent c : sanitize_char (sanitize_char c) = sanitize_char c.
Proof. destruct c as [[] [] [] [] [] [] [] []]; vm_compute; reflexivity. Qed.

Lemma sanitize_char_no_colon c : not_colon (sanitize_char c) = true.
Proof. destruct c as [[] [] [] [] [] [] [] []]; vm_compute; reflexivity. Qed.

Lemma sanitize_char_no_slash c : not_slash (sanitize_char c) = true.
Proof. destruct c as [[] [] [] [] [] [] [] []]; vm_compute; reflexivity. Qed.

Lemma string_map_idempotent f s :
  (∀ c, f (f c) = f c) -> string_map f (string_map f s) = string_map f s.
Proof.
  intros Hf. induction s as [|c s IH]; cbn; [reflexivity|]. rewrite Hf, IH. reflexivity.
Qed.

(** A string that starts with [old] has every character of [old]. *)
Lemma prefix_forall p old s :
  String.prefix old s = true -> string_forall p s = true -> string_forall p old = true.
Proof.
  revert s. induction old as [|a old IH]; intros s; [reflexivity|].
  destruct s as [|b s]; cbn [String.prefix]; [discriminate|].
  destruct (ascii_dec a b) as [<-|]; [|discriminate].
  cbn [string_forall]. intros Hp [Ha Hs]%andb_true_iff.
  rewrite Ha. apply (IH s Hp Hs).
Qed.

(** [replace] changes nothing when [old] has a character the string has
    not. *)
Lemma replace_from_absent p old new s :
  string_forall p old = false -> string_forall p s = true ->
  replace_from old new 0 s = s.
Proof.
  intros Hold. induction s as [|c s IH]; [reflexivity|].
  intros Hs. rewrite replace_from_cons.
  destruct (String.prefix old (String c s)) eqn:E.
  - rewrite (prefix_forall p old _ E Hs) in Hold. discriminate.
  - cbn [string_forall] in Hs. apply andb_true_iff in Hs as [_ Hs].
    rewrite (IH Hs). reflexivity.
Qed.

Lemma string_forall_app p a b :
  string_forall p (a +:+ b) = string_forall p a && string_forall p b.
Proof.
  induction a as [|c a IH]; [reflexivity|].
  change (String c a +:+ b) with (String c (a +:+ b)).
  cbn [string_forall]. rewrite IH. apply andb_assoc.
Qed.

Lemma sanitize_filename_forall p url :
  (∀ c, p (sanitize_char c) = true) -> string_forall p (sanitize_filename url) = true.
Proof.
  intros Hp. unfold sanitize_filename. rewrite re_sub_class_map.
  apply string_forall_map with (p := fun _ => true); [auto|apply string_forall_true].
Qed.

(** X1: sanitizing a sanitized name changes nothing. *)
Theorem sanitize_filename_idempotent url :
  sanitize_filename (sanitize_filename url) = sanitize_filename url.
Proof.
  pose proof (sanitize_filename_forall not_colon url sanitize_char_no_colon) as Hc.
  unfold sanitize_filename at 1.
  unfold replace.
  rewrite (replace_from_absent not_colon "https://" "" _ eq_refl Hc).
  rewrite (replace_from_absent not_colon "http://" "" _ eq_refl Hc).
  rewrite re_sub_class_map. unfold sanitize_filename. rewrite re_sub_class_map.
  apply string_map_idempotent, sanitize_char_idempotent.
Qed.

Lemma last_char_app a b : b ≠ "" -> last_char (a +:+ b) = last_char b.
Proof.
  intros Hb. induction a as [|c a IH]; [reflexivity|].
  change (String c a +:+ b) with (String c (a +:+ b)).
  cbn [last_char]. destruct (a +:+ b) eqn:E; [|exact IH].
  destruct a; [|discriminate E]. destruct (Hb E).
Qed.

Lemma posix_join_output_last cwd : last_char (posix_join cwd "output") = Some "t"%char.
Proof.
  unfold posix_join. cbn [String.prefix]. destruct (ascii_dec "/" "o"); [discriminate|].
  destruct (last_char cwd) as [c|]; [|reflexivity].
  destruct (ord c =? 47)%N; rewrite ?last_char_app; try reflexivity; discriminate.
Qed.

(** X2: the workbook is written directly inside the [output] directory of
    the working directory: its path is that directory, a separator, and a
    file name without separator, whatever the start URL. *)
Theorem workbook_inside_output cwd self :
  file_path (save_to_excel cwd self)
    = posix_join cwd "output" +:+ "/" +:+ (sanitize_filename (start_url self) +:+ ".xlsx") ∧
  string_forall not_slash (sanitize_filename (start_url self) +:+ ".xlsx") = true.
Proof.
  assert (Hn : string_forall not_slash (sanitize_filename (start_url self) +:+ ".xlsx") = true).
  { rewrite string_forall_app, (sanitize_filename_forall not_slash _ sanitize_char_no_slash).
    reflexivity. }
  split; [|exact Hn].
  unfold save_to_excel. cbn [file_path]. unfold posix_join at 1.
  destruct (String.prefix "/" (sanitize_filename (start_url self) +:+ ".xlsx")) eqn:E.
  { pose proof (prefix_forall not_slash _ _ E Hn) as H. discriminate H. }
  rewrite posix_join_output_last. reflexivity.
Qed.

(** ** [determine_transaction_type] *)

Lemma lower_app a b : lower (a +:+ b) = lower a +:+ lower b.
Proof.
  induction a as [|c a IH]; [reflexivity|].
  change (String c a +:+ b) with (String c (a +:+ b)).
  cbn [lower]. rewrite IH. reflexivity.
Qed.

Lemma str_in_unfold sub s :
  str_in sub s =
  String.prefix sub s ||
  match s with
  | EmptyString => false
  | String _ s' => str_in sub s'
  end.
Proof. destruct s; reflexivity. Qed.

Lemma prefix_app sub y : String.prefix sub (sub +:+ y) = true.
Proof.
  induction sub as [|c sub IH]; [destruct y; reflexivity|].
  change (String c sub +:+ y) with (String c (sub +:+ y)).
  cbn [String.prefix]. destruct (ascii_dec c c); [exact IH|congruence].
Qed.

Lemma str_in_app x sub y : str_in sub (x +:+ sub +:+ y) = true.
Proof.
  induction x as [|c x IH].
  - change ("" +:+ sub +:+ y) with (sub +:+ y).
    rewrite str_in_unfold, prefix_app. reflexivity.
  - change (String c x +:+ sub +:+ y) with (String c (x +:+ sub +:+ y)).
    rewrite str_in_unfold, IH. apply orb_true_r.
Qed.

(** X3: a start URL that contains "sale" in any letter case, anywhere (host,
    path or query), is a "Sale" URL, also when it contains "rent" as well. *)
Theorem sale_anywhere_any_case a m b :
  lower m = "sale" ->
  determine_transaction_type (a +:+ m +:+ b) = Some "Sale".
Proof.
  intros Hm. unfold determine_transaction_type.
  rewrite !lower_app, Hm, str_in_app. reflexivity.
Qed.

Lemma sale_anywhere_any_case_witness :
  determine_transaction_type ("https://www.example.com/For-" +:+ "SALE" +:+ "?also=rent")
  = Some "Sale".
Proof. apply sale_anywhere_any_case. reflexivity. Defined.

(** ** Extracted text *)

Lemma lstrip_starts_nonspace s : starts_nonspace (lstrip s).
Proof.
  induction s as [|c s IH]; cbn; [exact I|].
  destruct (isspace c) eqn:E; [exact IH|exact E].
Qed.

Lemma rstrip_starts_nonspace s : starts_nonspace s -> starts_nonspace (rstrip s).
Proof.
  destruct s as [|c s]; cbn; [auto|]. intros Hc.
  destruct (rstrip s); [rewrite Hc|]; exact Hc.
Qed.

Lemma rstrip_idempotent s : rstrip (rstrip s) = rstrip s.
Proof.
  induction s as [|c s IH]; [reflexivity|]. cbn [rstrip].
  destruct (rstrip s) as [|d r] eqn:E.
  - destruct (isspace c) eqn:Ec; [reflexivity|]. cbn. rewrite Ec. reflexivity.
  - cbn [rstrip]. cbn [rstrip] in IH. rewrite IH. reflexivity.
Qed.

Lemma strip_trimmed s : trimmed (strip s).
Proof.
  split.
  - apply rstrip_starts_nonspace, lstrip_starts_nonspace.
  - apply rstrip_idempotent.
Qed.

Lemma trimmed_strip s : trimmed s -> strip s = s.
Proof.
  intros [H1 H2]. unfold strip.
  destruct s as [|c s]; [reflexivity|]. cbn in H1. cbn [lstrip]. rewrite H1. exact H2.
Qed.

Lemma rstrip_app a b : rstrip b ≠ "" -> rstrip (a +:+ b) = a +:+ rstrip b.
Proof.
  intros Hb. induction a as [|c a IH]; [reflexivity|].
  change (String c a +:+ b) with (String c (a +:+ b)).
  change (String c a +:+ rstrip b) with (String c (a +:+ rstrip b)).
  cbn [rstrip]. rewrite IH.
  destruct (a +:+ rstrip b) eqn:E; [|reflexivity].
  destruct a; [destruct (Hb E)|discriminate E].
Qed.

Lemma trimmed_app a b : a ≠ "" -> b ≠ "" -> trimmed a -> trimmed b -> trimmed (a +:+ b).
Proof.
  intros Ha Hb [Ha1 Ha2] [Hb1 Hb2]. split.
  - destruct a; [congruence|exact Ha1].
  - rewrite rstrip_app; rewrite Hb2; [reflexivity|exact Hb].
Qed.

Lemma append_empty_r s : s +:+ "" = s.
Proof.
  induction s as [|c s IH]; [reflexivity|].
  change (String c s +:+ "") with (String c (s +:+ "")). rewrite IH. reflexivity.
Qed.

Lemma concat_strings_trimmed l :
  Forall (fun s => s ≠ "" ∧ trimmed s) l -> trimmed (concat_strings l).
Proof.
  induction 1 as [|s l [Hs Ht] Hl IH]; [split; [exact I|reflexivity]|].
  cbn [concat_strings]. destruct l as [|s' l].
  - cbn [concat_strings]. rewrite append_empty_r. exact Ht.
  - apply trimmed_app; [exact Hs| |exact Ht|exact IH].
    apply Forall_cons in Hl as [[Hs' _] _].
    cbn [concat_strings]. destruct s'; [congruence|discriminate].
Qed.

Lemma get_text_strip_trimmed n : trimmed (get_text_strip n).
Proof.
  unfold get_text_strip. apply concat_strings_trimmed.
  apply Forall_forall. intros s [Hne Hin]%list_elem_of_filter.
  split.
  - intros ->. discriminate Hne.
  - apply list_elem_of_fmap in Hin as (t & -> & _). apply strip_trimmed.
Qed.

Lemma text_or_dash_stripped o : strip (text_or_dash o) = text_or_dash o.
Proof.
  destruct o as [n|]; [|reflexivity]. apply trimmed_strip, get_text_strip_trimmed.
Qed.

(** X4: the text fields of a record have no whitespace at either end:
    stripping the address, the property type, the description, the two
    prices, every amenity or every characteristics value again changes
    nothing. *)
Theorem text_fields_stripped self url page r :
  property_data self url page = Ok r ->
  strip (PropertyData.address r) = PropertyData.address r ∧
  strip (PropertyData.property_type r) = PropertyData.property_type r ∧
  strip (PropertyData.description r) = PropertyData.description r ∧
  strip (PropertyData.Sale_Price r) = PropertyData.Sale_Price r ∧
  strip (PropertyData.Rent_Price r) = PropertyData.Rent_Price r ∧
  Forall (fun a => strip a = a) (PropertyData.amenities r) ∧
  map_Forall (fun _ v => strip v = v) (PropertyData.characteristics r).
Proof.
  intros (e & n & la & lo & _ & _ & _ & _ & ->)%property_data_Ok.
  cbn [record_of PropertyData.address PropertyData.property_type
    PropertyData.description PropertyData.Sale_Price PropertyData.Rent_Price
    PropertyData.amenities PropertyData.characteristics].
  split_and!.
  - destruct (select_one sel_maps_anchor page) as [a|].
    + apply trimmed_strip, get_text_strip_trimmed.
    + apply text_or_dash_stripped.
  - apply text_or_dash_stripped.
  - apply text_or_dash_stripped.
  - apply text_or_dash_stripped.
  - apply text_or_dash_stripped.
  - destruct (select_one sel_amenities page) as [ul|]; [|constructor].
    apply Forall_forall. intros a (li & -> & _)%list_elem_of_fmap.
    apply trimmed_strip, get_text_strip_trimmed.
  - unfold page_characteristics.
    destruct (select_one sel_further_information page) as [d|];
      [|apply map_Forall_empty].
    rewrite characteristics_of_positional. unfold positional_mapping.
    intros k v Hkv. apply elem_of_list_to_map_2 in Hkv.
    apply elem_of_reverse, elem_of_zip_r in Hkv.
    apply list_elem_of_fmap in Hkv as (item & -> & _).
    apply trimmed_strip, get_text_strip_trimmed.
Qed.

Lemma text_fields_stripped_witness :
  ∃ r, property_data init_default "https://www.barbadospropertysearch.com/p/2" Demo.p2 = Ok r ∧
       strip (PropertyData.address r) = PropertyData.address r.
Proof.
  eexists. split; [reflexivity|].
  exact (proj1 (text_fields_stripped init_default
           "https://www.barbadospropertysearch.com/p/2" Demo.p2 _ eq_refl)).
Defined.

(** Removing a character leaves none of it. *)
Lemma replace_colon_no_colon s :
  string_forall not_colon (replace ":" "" s) = true.
Proof.
  unfold replace. induction s as [|c s IH]; [reflexivity|].
  rewrite replace_from_cons. cbn [String.prefix].
  destruct (ascii_dec ":" c) as [<-|Hc].
  - assert (E : String.prefix "" s = true) by (destruct s; reflexivity).
    rewrite E. exact IH.
  - cbn [string_forall]. rewrite IH, andb_true_r.
    unfold not_colon.
    destruct (ord c =? 58)%N eqn:E; [|reflexivity].
    apply N.eqb_eq in E. destruct Hc.
    rewrite <- (ascii_N_embedding c). unfold ord in E. rewrite E. reflexivity.
Qed.

(** X5: no key of the characteristics mapping contains a colon. *)
Theorem characteristics_keys_without_colon self url page r :
  property_data self url page = Ok r ->
  ∀ k, k ∈ dom (PropertyData.characteristics r) -> string_forall not_colon k = true.
Proof.
  intros (e & n & la & lo & _ & _ & _ & _ & ->)%property_data_Ok k.
  cbn [record_of PropertyData.characteristics]. unfold page_characteristics.
  destruct (select_one sel_further_information page) as [d|];
    [|rewrite dom_empty_L; intros H; destruct (not_elem_of_empty _ H)].
  rewrite characteristics_of_positional. unfold positional_mapping.
  rewrite dom_list_to_map_L, elem_of_list_to_set, fmap_reverse, elem_of_reverse, zip_keys.
  intros Hk%subseteq_take.
  apply list_elem_of_fmap in Hk as (label & -> & _).
  apply replace_colon_no_colon.
Qed.

Lemma characteristics_keys_without_colon_witness :
  string_forall not_colon "Land Area" = true.
Proof.
  refine (characteristics_keys_without_colon init_default
            "https://www.barbadospropertysearch.com/p/1" Demo.p1 _ eq_refl "Land Area" _).
  apply elem_of_dom. eexists. reflexivity.
Defined.

(** ** Failures of the extraction *)

(** X6: the extraction raises exactly when an element matched for the
    external link, the name, the latitude or the longitude lacks the
    attribute read from it; it then raises [KeyError] of "href" or of
    "content" and nothing else; and an external link anchor without [href]
    gives [KeyError] of "href" whatever else the page holds. *)
Theorem extraction_raises_only_key_errors self url page :
  ((∃ e, property_data self url page = Raise e) ↔ ¬ attribute_reads_ok page) ∧
  (∀ e, property_data self url page = Raise e ->
        e = KeyError "href" ∨ e = KeyError "content") ∧
  (∀ a, select_one sel_external_link page = Some a ->
        assoc "href" (attrs_of a) = None ->
        property_data self url page = Raise (KeyError "href")).
Proof.
  split_and!.
  - split.
    + intros [e He] [r Hr]%(property_data_returns self url). congruence.
    + intros Hn. destruct (property_data self url page) as [r|e] eqn:E; [|eauto].
      destruct Hn. apply (property_data_returns self url). eauto.
  - apply property_data_raises.
  - intros a Ha Hh. rewrite property_data_unfold, Ha. cbn [item_or_dash].
    unfold getitem. rewrite Hh. reflexivity.
Qed.

Lemma extraction_raises_only_key_errors_witness :
  property_data init_default "https://www.barbadospropertysearch.com/p/6"
    [Tag "div" ["field-name-external-url-ds-"] []
       [Tag "div" ["field-item"] [] [Tag "a" [] [] [NavigableString "site"]]];
     Tag "meta" [] [("property", "og:title")] []]
  = Raise (KeyError "href").
Proof.
  apply (proj2 (proj2 (extraction_raises_only_key_errors _ _ _))
           (Tag "a" [] [] [NavigableString "site"])); reflexivity.
Defined.

(** ** What the walk keeps *)

(** X7: from any state, under any recursion limit and whatever the outcome, the walk
    leaves the base URL, the start URL and the transaction type as they
    were, only adds to the visited set, only appends to the records and
    only appends to the requests. *)
Theorem walk_only_appends depth web url p :
  base_url (self (scrape_page depth web url p).1) = base_url (self p) ∧
  start_url (self (scrape_page depth web url p).1) = start_url (self p) ∧
  transaction_type (self (scrape_page depth web url p).1) = transaction_type (self p) ∧
  scraped_urls (self p) ⊆ scraped_urls (self (scrape_page depth web url p).1) ∧
  data (self p) `prefix_of` data (self (scrape_page depth web url p).1) ∧
  sent p `prefix_of` sent (scrape_page depth web url p).1.
Proof. destruct (scrape_page_extends depth web url p). split_and!; assumption. Qed.

Lemma scrape_listing_nearly web u p :
  settled p ->
  nearly_settled (scrape_listing web u p).1 ∧
  ((scrape_listing web u p).2 = Returned -> settled (scrape_listing web u p).1).
Proof.
  unfold nearly_settled, settled. intros Hs.
  destruct (scrape_listing_cases web u p) as [(e & -> & _)|(page & r & _ & Hr & ->)];
    cbn [fst snd].
  - split; [|discriminate]. right. exists u.
    rewrite listing_requests_send_listing, <- Hs. reflexivity.
  - assert (H : record_urls (self (update (append_data r) (send (Listing_page u) p)))
               = listing_requests (sent (update (append_data r) (send (Listing_page u) p)))).
    { change (sent (update (append_data r) (send (Listing_page u) p)))
        with (sent (send (Listing_page u) p)).
      rewrite listing_requests_send_listing, <- Hs.
      unfold record_urls. cbn. rewrite map_app. cbn.
      rewrite (property_data_url _ _ _ _ Hr). reflexivity. }
    auto.
Qed.

Lemma scrape_elements_nearly web els :
  ∀ p, settled p ->
    nearly_settled (scrape_elements web els p).1 ∧
    ((scrape_elements web els p).2 = Returned -> settled (scrape_elements web els p).1).
Proof.
  induction els as [|el els IH]; intros p Hs.
  - split; [left|]; auto.
  - rewrite scrape_elements_cons.
    destruct (getitem el "href") as [href|e]; [|split; [left|]; auto].
    cbn zeta. case_decide; [apply IH, Hs|].
    destruct (scrape_listing_nearly web (base_url (self p) +:+ href)
                (update (add_scraped (base_url (self p) +:+ href)) p) Hs) as [H1 H2].
    destruct (Returned_or_not (scrape_listing web (base_url (self p) +:+ href)
                (update (add_scraped (base_url (self p) +:+ href)) p)).2) as [Hr|Hr].
    + unfold and_then. rewrite Hr. apply IH, H2, Hr.
    + rewrite (and_then_not_Returned _ _ Hr). split; [exact H1|exact H2].
Qed.

Lemma scrape_page_nearly depth web :
  ∀ url p, settled p ->
    nearly_settled (scrape_page depth web url p).1 ∧
    ((scrape_page depth web url p).2 = Returned -> settled (scrape_page depth web url p).1).
Proof.
  induction depth as [|depth IH]; intros url p Hs; [split; [left|]; auto|].
  cbn [scrape_page].
  assert (Hs1 : settled (send (Index_page url) p)).
  { unfold settled. rewrite listing_requests_send_index. exact Hs. }
  destruct (web url) as [page|]; [|split; [left|]; auto].
  destruct (scrape_elements_nearly web (select sel_listing_links page) _ Hs1) as [H1 H2].
  destruct (Returned_or_not (scrape_elements web (select sel_listing_links page)
              (send (Index_page url) p)).2) as [Hr|Hr].
  2:{ rewrite (and_then_not_Returned _ _ Hr). split; [exact H1|exact H2]. }
  unfold and_then. rewrite Hr. specialize (H2 Hr).
  destruct (select_one sel_pager_next page) as [next|]; [|split; [left|]; auto].
  destruct (getitem next "href"); [apply IH, H2|split; [left|]; auto].
Qed.

(** X8: in every run, returned or aborted, the URLs of the records are the
    URLs of the requested listings in the order of the requests, but
    possibly the last one (the listing whose extraction failed); no two
    records have the same URL, and the URL of every record is in the
    visited set. *)
Theorem records_follow_requests depth web start :
  let p := (scrape depth web (init start)).1 in
  (record_urls (self p) = listing_requests (sent p) ∨
   ∃ u, listing_requests (sent p) = record_urls (self p) ++ [u]) ∧
  NoDup (record_urls (self p)) ∧
  Forall (fun r => PropertyData.url r ∈ scraped_urls (self p)) (data (self p)).
Proof.
  cbn zeta. unfold scrape.
  set (p0 := {| self := init start; sent := [] |}).
  assert (H0 : consistent p0).
  { split; [constructor|]. intros u. cbn. split; intros H; inversion H. }
  destruct (scrape_page_consistent depth web (start_url (init start)) p0 H0)
    as ((Hnd & Hset) & _ & _).
  destruct (scrape_page_nearly depth web (start_url (init start)) p0 eq_refl) as [Hn _].
  set (p := (scrape_page depth web (start_url (init start)) p0).1) in *.
  assert (Hpre : record_urls (self p) `prefix_of` listing_requests (sent p)).
  { destruct Hn as [->|[u ->]]; [reflexivity|apply prefix_app_r; reflexivity]. }
  split_and!.
  - exact Hn.
  - destruct Hpre as [k Hk]. rewrite Hk in Hnd.
    apply NoDup_app in Hnd as [Hnd _]. exact Hnd.
  - apply Forall_forall. intros r Hr. apply Hset.
    destruct Hpre as [k ->]. apply elem_of_app. left.
    apply list_elem_of_fmap. eauto.
Qed.

(** ** Where the records come from *)

(** The extraction reads nothing of the scraper but its transaction
    type. *)
Lemma property_data_self s1 s2 url page :
  transaction_type s1 = transaction_type s2 ->
  property_data s1 url page = property_data s2 url page.
Proof.
  intros H. rewrite !property_data_unfold. unfold record_of. rewrite H. reflexivity.
Qed.

Lemma scrape_listing_sourced web s0 u p :
  transaction_type (self p) = transaction_type s0 ->
  sourced web s0 p -> sourced web s0 (scrape_listing web u p).1.
Proof.
  intros Ht H.
  destruct (scrape_listing_cases web u p) as [(e & -> & _)|(page & r & Hw & Hr & ->)].
  - exact H.
  - unfold sourced in *. cbn. apply Forall_app. split; [exact H|].
    constructor; [|constructor].
    rewrite (property_data_url _ _ _ _ Hr). exists page. split; [exact Hw|].
    rewrite <- Hr. apply property_data_self. congruence.
Qed.

Lemma scrape_elements_sourced web s0 els :
  ∀ p, transaction_type (self p) = transaction_type s0 ->
       sourced web s0 p -> sourced web s0 (scrape_elements web els p).1.
Proof.
  induction els as [|el els IH]; intros p Ht H; [exact H|].
  rewrite scrape_elements_cons.
  destruct (getitem el "href") as [href|e]; [|exact H].
  cbn zeta. case_decide; [apply IH; assumption|].
  set (q := update (add_scraped (base_url (self p) +:+ href)) p).
  pose proof (scrape_listing_sourced web s0 (base_url (self p) +:+ href) q Ht H) as H1.
  unfold and_then. destruct (scrape_listing web _ q).2; [|exact H1..].
  apply IH; [|exact H1].
  rewrite (ext_transaction_type _ _ (scrape_listing_extends web _ q)). exact Ht.
Qed.

Lemma scrape_page_sourced depth web s0 :
  ∀ url p, transaction_type (self p) = transaction_type s0 ->
           sourced web s0 p -> sourced web s0 (scrape_page depth web url p).1.
Proof.
  induction depth as [|depth IH]; intros url p Ht H; [exact H|].
  cbn [scrape_page]. destruct (web url) as [page|]; [|exact H].
  set (q := send (Index_page url) p).
  pose proof (scrape_elements_sourced web s0 (select sel_listing_links page) q Ht H) as H1.
  pose proof (ext_transaction_type _ _ (scrape_elements_extends web
                (select sel_listing_links page) q)) as Ht1.
  unfold and_then. destruct (scrape_elements web _ q).2; [|exact H1..].
  destruct (select_one sel_pager_next page) as [next|]; [|exact H1].
  destruct (getitem next "href"); [|exact H1].
  apply IH; [rewrite Ht1; exact Ht|exact H1].
Qed.

(** X9: in every run, every record of the collection is the record the
    extractor builds from the page the site answers for the record's own
    URL. *)
Theorem records_come_from_their_pages depth web start :
  Forall (fun r => ∃ page, web (PropertyData.url r) = Some page ∧
                           property_data (init start) (PropertyData.url r) page = Ok r)
         (data (self (scrape depth web (init start)).1)).
Proof.
  unfold scrape.
  apply (scrape_page_sourced depth web (init start) _ {| self := init start; sent := [] |});
    [reflexivity|constructor].
Qed.

(** ** The order of discovery *)

Lemma first_occurrences_app seen a b :
  first_occurrences seen (a ++ b)
  = first_occurrences seen a ++ first_occurrences (seen ∪ list_to_set a) b.
Proof.
  revert seen. induction a as [|u a IH]; intros seen.
  - cbn. f_equal. set_solver.
  - cbn [app first_occurrences]. case_decide as Hu.
    + rewrite IH. do 2 f_equal. set_solver.
    + rewrite IH. cbn [app]. do 3 f_equal. set_solver.
Qed.

Lemma link_urls_cons base el els href :
  getitem el "href" = Ok href ->
  link_urls base (el :: els) = (base +:+ href) :: link_urls base els.
Proof.
  intros H.
  change (link_urls base (el :: els)) with
    (match (match getitem el "href" with
            | Ok h => Some (base +:+ h)
            | Raise _ => None
            end) with
     | Some y => y :: link_urls base els
     | None => link_urls base els
     end).
  rewrite H. reflexivity.
Qed.

Lemma scrape_listing_Returned web u q :
  (scrape_listing web u q).2 = Returned ->
  sent (scrape_listing web u q).1 = sent q ++ [Listing_page u] ∧
  scraped_urls (self (scrape_listing web u q).1) = scraped_urls (self q) ∧
  base_url (self (scrape_listing web u q).1) = base_url (self q).
Proof.
  destruct (scrape_listing_cases web u q) as [(e & -> & _)|(page & r & _ & _ & ->)];
    [discriminate|]. intros _. split_and!; reflexivity.
Qed.

(** What one pass over the listing links of a page requests, when it
    returns. *)
Lemma scrape_elements_order web els :
  ∀ p, (scrape_elements web els p).2 = Returned ->
    Forall (fun el => ∃ href, getitem el "href" = Ok href) els ∧
    listing_requests (sent (scrape_elements web els p).1)
      = listing_requests (sent p)
        ++ first_occurrences (scraped_urls (self p)) (link_urls (base_url (self p)) els) ∧
    scraped_urls (self (scrape_elements web els p).1)
      = scraped_urls (self p) ∪ list_to_set (link_urls (base_url (self p)) els).
Proof.
  induction els as [|el els IH]; intros p.
  - intros _. cbn. split_and!; [constructor|rewrite app_nil_r; reflexivity|set_solver].
  - rewrite scrape_elements_cons.
    destruct (getitem el "href") as [href|e] eqn:Eh; [|discriminate].
    rewrite (link_urls_cons _ _ _ _ Eh). cbn zeta.
    set (u := base_url (self p) +:+ href).
    case_decide as Hin.
    + intros Hret. destruct (IH p Hret) as (H1 & H2 & H3).
      split_and!; [constructor; eauto| |].
      * cbn [first_occurrences]. case_decide; [exact H2|contradiction].
      * rewrite H3. set_solver.
    + intros Hret. destruct (and_then_Returned _ _ Hret) as [Hl Heq].
      rewrite Heq in Hret |- *.
      destruct (scrape_listing_Returned web u _ Hl) as (Hs & Hv & Hb).
      set (q := (scrape_listing web u (update (add_scraped u) p)).1) in *.
      destruct (IH q Hret) as (H1 & H2 & H3).
      split_and!; [constructor; eauto| |].
      * rewrite H2, Hs, Hb, Hv. cbn [first_occurrences]. case_decide; [contradiction|].
        unfold listing_requests at 1. rewrite omap_app.
        cbn. rewrite <- app_assoc. reflexivity.
      * rewrite H3, Hv, Hb. cbn. set_solver.
Qed.

Lemma scrape_page_order depth web :
  ∀ url p, (scrape_page depth web url p).2 = Returned ->
    ∃ new,
      index_requests (sent (scrape_page depth web url p).1) = index_requests (sent p) ++ new ∧
      listing_requests (sent (scrape_page depth web url p).1)
        = listing_requests (sent p)
          ++ first_occurrences (scraped_urls (self p))
               (flat_map (page_links web (base_url (self p))) new) ∧
      scraped_urls (self (scrape_page depth web url p).1)
        = scraped_urls (self p)
          ∪ list_to_set (flat_map (page_links web (base_url (self p))) new).
Proof.
  induction depth as [|depth IH]; intros url p; [discriminate|].
  cbn [scrape_page].
  destruct (web url) as [page|] eqn:Ew; [|discriminate].
  set (p1 := send (Index_page url) p).
  intros Hret. destruct (and_then_Returned _ _ Hret) as [Hl Heq].
  rewrite Heq in Hret |- *.
  destruct (scrape_elements_order web _ p1 Hl) as (_ & H2 & H3).
  pose proof (scrape_elements_index_requests web (select sel_listing_links page) p1) as Hi.
  pose proof (ext_base_url _ _ (scrape_elements_extends web
                (select sel_listing_links page) p1)) as Hb.
  set (q := (scrape_elements web (select sel_listing_links page) p1).1) in *.
  unfold p1 in H2, H3, Hi, Hb.
  rewrite listing_requests_send_index in H2. rewrite index_requests_send_index in Hi.
  change (self (send (Index_page url) p)) with (self p) in H2, H3, Hb.
  assert (Hlinks : page_links web (base_url (self p)) url
                   = link_urls (base_url (self p)) (select sel_listing_links page)).
  { unfold page_links. rewrite Ew. reflexivity. }
  rewrite <- Hlinks in H2, H3.
  destruct (select_one sel_pager_next page) as [next|].
  2:{ exists [url]. cbn [flat_map]. rewrite app_nil_r. auto. }
  destruct (getitem next "href") as [href|e]; [|discriminate].
  destruct (IH _ _ Hret) as (new & G1 & G2 & G3).
  exists (url :: new). cbn [flat_map]. split_and!.
  - rewrite G1, Hi, <- app_assoc. reflexivity.
  - rewrite G2, H2, H3, Hb, first_occurrences_app, <- app_assoc. reflexivity.
  - rewrite G3, H3, Hb, list_to_set_app_L. set_solver.
Qed.

(** X10: when the walk returns, the URLs of the records, in their order,
    are the targets of the listing links of the index pages requested, in
    the order of the pages and of the links on each page, each target kept
    at its first occurrence only. *)
Theorem records_in_discovery_order depth web start :
  (scrape depth web (init start)).2 = Returned ->
  record_urls (self (scrape depth web (init start)).1)
  = first_occurrences ∅
      (flat_map (page_links web (base_url (init start)))
         (index_requests (sent (scrape depth web (init start)).1))).
Proof.
  unfold scrape. set (p0 := {| self := init start; sent := [] |}). intros Hret.
  destruct (scrape_page_nearly depth web (start_url (init start)) p0 eq_refl) as [_ Hs].
  rewrite (Hs Hret).
  destruct (scrape_page_order depth web _ p0 Hret) as (new & G1 & G2 & _).
  rewrite G1, G2. reflexivity.
Qed.

Lemma records_in_discovery_order_witness :
  record_urls (self (scrape 2 Demo.web init_default).1)
  = ["https://www.barbadospropertysearch.com/p/1";
     "https://www.barbadospropertysearch.com/p/2";
     "https://www.barbadospropertysearch.com/p/3"].
Proof.
  etrans.
  - apply (records_in_discovery_order 2 Demo.web
             "https://www.barbadospropertysearch.com/for-rent"). reflexivity.
  - vm_compute. reflexivity.
Defined.

(** ** Links seen before *)

Lemma scrape_elements_seen web els :
  ∀ p, Forall (fun el => ∃ href, getitem el "href" = Ok href ∧
                                 base_url (self p) +:+ href ∈ scraped_urls (self p)) els ->
       scrape_elements web els p = (p, Returned).
Proof.
  induction els as [|el els IH]; intros p H; [reflexivity|].
  apply Forall_cons in H as [(href & Eh & Hin) H].
  rewrite scrape_elements_cons, Eh. cbn zeta.
  case_decide; [apply IH, H|contradiction].
Qed.

Lemma elem_of_link_urls base els el href :
  el ∈ els -> getitem el "href" = Ok href -> base +:+ href ∈ link_urls base els.
Proof.
  intros Hel Hh. unfold link_urls. apply list_elem_of_omap.
  exists el. rewrite Hh. auto.
Qed.

(** X11: a pass over the listing links of a page that returned has
    visited them all: running the same pass again sends no request, adds no
    record and returns. *)
Theorem second_pass_changes_nothing web els p :
  (scrape_elements web els p).2 = Returned ->
  scrape_elements web els (scrape_elements web els p).1
  = ((scrape_elements web els p).1, Returned).
Proof.
  intros Hret. destruct (scrape_elements_order web els p Hret) as (H1 & _ & H3).
  apply scrape_elements_seen.
  rewrite (ext_base_url _ _ (scrape_elements_extends web els p)).
  apply Forall_forall. intros el Hel.
  rewrite Forall_forall in H1. destruct (H1 el Hel) as [href Hh].
  exists href. split; [exact Hh|].
  rewrite H3. apply elem_of_union_r, elem_of_list_to_set.
  apply (elem_of_link_urls _ _ el); assumption.
Qed.

Lemma second_pass_changes_nothing_witness :
  let els := select sel_listing_links Demo.index1 in
  let p := {| self := init_default; sent := [] |} in
  scrape_elements Demo.web els (scrape_elements Demo.web els p).1
  = ((scrape_elements Demo.web els p).1, Returned).
Proof.
  apply second_pass_changes_nothing. reflexivity.
Defined.

(** ** Index pages are not remembered *)

(** X12: the walk keeps no record of the index pages it has requested.  On
    an index page whose "next page" link leads back to the page itself, and
    whose listings can be extracted, the walk never returns: it requests
    the page again at every level of the recursion and ends by raising
    [RecursionError], the page requested once for every nested call the
    recursion limit allows. *)
Theorem self_linked_index_page_never_ends web u page next href p :
  web u = Some page ->
  select_one sel_pager_next page = Some next ->
  getitem next "href" = Ok href ->
  base_url (self p) +:+ href = u ->
  (∀ el, el ∈ select sel_listing_links page -> listing_link_ok web (base_url (self p)) el) ->
  ∀ depth,
    (scrape_page depth web u p).2 = Raised RecursionError ∧
    index_requests (sent (scrape_page depth web u p).1)
      = index_requests (sent p) ++ replicate depth u.
Proof.
  intros Hw Hn Hh Hu Hok depth. revert p Hu Hok.
  induction depth as [|depth IH]; intros p Hu Hok.
  - cbn. rewrite app_nil_r. auto.
  - cbn [scrape_page]. rewrite Hw.
    set (p1 := send (Index_page u) p).
    pose proof (scrape_elements_returns web (select sel_listing_links page) p1 Hok) as Hr.
    pose proof (scrape_elements_index_requests web (select sel_listing_links page) p1) as Hi.
    pose proof (ext_base_url _ _ (scrape_elements_extends web
                  (select sel_listing_links page) p1)) as Hb.
    change (base_url (self p1)) with (base_url (self p)) in Hb.
    unfold and_then. rewrite Hr, Hn, Hh, Hb, Hu.
    destruct (IH (scrape_elements web (select sel_listing_links page) p1).1) as [G1 G2].
    + rewrite Hb. exact Hu.
    + rewrite Hb. exact Hok.
    + split; [exact G1|].
      rewrite G2, Hi. unfold p1. rewrite index_requests_send_index, <- app_assoc.
      reflexivity.
Qed.

Lemma self_linked_index_page_never_ends_witness :
  (scrape 7 Loop.web init_default).2 = Raised RecursionError ∧
  index_requests (sent (scrape 7 Loop.web init_default).1)
    = replicate 7 "https://www.barbadospropertysearch.com/for-rent".
Proof.
  refine (self_linked_index_page_never_ends Loop.web
            "https://www.barbadospropertysearch.com/for-rent" Loop.index
            (Tag "a" [] [("href", "/for-rent")] [Demo.text "next"]) "/for-rent"
            {| self := init_default; sent := [] |} eq_refl eq_refl eq_refl eq_refl _ 7).
  intros el Hel. apply list_elem_of_singleton in Hel as ->.
  exists "/p/1", Demo.p1. split_and!; try reflexivity.
  repeat split; cbn; eauto.
Defined.

(** ** Failed requests *)

Lemma Forall_answered_snoc web l r :
  Forall (answered web) l -> is_Some (web (request_url r)) ->
  Forall (answered web) (l ++ [r]).
Proof. intros Hl Hr. apply Forall_app. split; [exact Hl|]. constructor; [exact Hr|constructor]. Qed.

Lemma scrape_listing_answered web u p :
  Forall (answered web) (sent p) ->
  requests_answered web (scrape_listing web u p).1 (scrape_listing web u p).2.
Proof.
  intros H. unfold scrape_listing.
  destruct (web u) as [page|] eqn:Ew.
  - assert (Hs : Forall (answered web) (sent (send (Listing_page u) p))).
    { apply Forall_answered_snoc; [exact H|]. cbn. rewrite Ew. eauto. }
    destruct (property_data _ u page) as [r|e] eqn:E; [exact Hs|].
    apply property_data_raises in E as [->| ->]; exact Hs.
  - cbn. exists (sent p), (Listing_page u). auto.
Qed.

Lemma scrape_elements_answered web els :
  ∀ p, Forall (answered web) (sent p) ->
       requests_answered web (scrape_elements web els p).1 (scrape_elements web els p).2.
Proof.
  induction els as [|el els IH]; intros p H; [exact H|].
  rewrite scrape_elements_cons. unfold getitem.
  destruct (assoc "href" (attrs_of el)) as [href|]; [|exact H].
  cbn zeta. case_decide; [apply IH, H|].
  pose proof (scrape_listing_answered web (base_url (self p) +:+ href)
                (update (add_scraped (base_url (self p) +:+ href)) p) H) as H1.
  destruct (Returned_or_not (scrape_listing web (base_url (self p) +:+ href)
              (update (add_scraped (base_url (self p) +:+ href)) p)).2) as [Hr|Hr].
  - unfold and_then. rewrite Hr. apply IH. rewrite Hr in H1. exact H1.
  - rewrite (and_then_not_Returned _ _ Hr). exact H1.
Qed.

Lemma scrape_page_answered depth web :
  ∀ url p, Forall (answered web) (sent p) ->
           requests_answered web (scrape_page depth web url p).1 (scrape_page depth web url p).2.
Proof.
  induction depth as [|depth IH]; intros url p H; [exact H|].
  cbn [scrape_page]. destruct (web url) as [page|] eqn:Ew.
  2:{ cbn. exists (sent p), (Index_page url). auto. }
  assert (Hs : Forall (answered web) (sent (send (Index_page url) p))).
  { apply Forall_answered_snoc; [exact H|]. cbn. rewrite Ew. eauto. }
  pose proof (scrape_elements_answered web (select sel_listing_links page) _ Hs) as H1.
  destruct (Returned_or_not (scrape_elements web (select sel_listing_links page)
              (send (Index_page url) p)).2) as [Hr|Hr].
  2:{ rewrite (and_then_not_Returned _ _ Hr). exact H1. }
  unfold and_then. rewrite Hr. rewrite Hr in H1.
  destruct (select_one sel_pager_next page) as [next|]; [|exact H1].
  unfold getitem. destruct (assoc "href" (attrs_of next)); [apply IH, H1|exact H1].
Qed.

(** X13: the walk stops at the first request that fails.  If it raised for
    a failed request, that request is the last one sent and every earlier
    one was answered; in every other case (it returned, it raised a
    [KeyError] or a [RecursionError]) every request sent was answered. *)
Theorem walk_stops_at_failed_request depth web start :
  match (scrape depth web (init start)).2 with
  | Raised RequestException =>
      ∃ l q, sent (scrape depth web (init start)).1 = l ++ [q] ∧
             Forall (fun r => is_Some (web (request_url r))) l ∧
             web (request_url q) = None
  | _ => Forall (fun r => is_Some (web (request_url r)))
           (sent (scrape depth web (init start)).1)
  end.
Proof.
  unfold scrape.
  apply (scrape_page_answered depth web (start_url (init start))
           {| self := init start; sent := [] |}).
  constructor.
Qed.

(** ** Only discovered listings are requested *)

Lemma scrape_listing_sent web u p :
  sent (scrape_listing web u p).1 = sent p ++ [Listing_page u].
Proof.
  destruct (scrape_listing_cases web u p) as [(e & -> & _)|(page & r & _ & _ & ->)];
    reflexivity.
Qed.

Lemma scrape_listing_known web s0 u p :
  known web s0 p ->
  (∃ idx, idx ∈ index_requests (sent p) ∧ discoverable web s0 idx u) ->
  known web s0 (scrape_listing web u p).1.
Proof.
  intros H Hu. unfold known in *. rewrite scrape_listing_sent.
  unfold listing_requests, index_requests in *. rewrite !omap_app. cbn.
  rewrite app_nil_r. apply Forall_app. split; [exact H|].
  constructor; [exact Hu|constructor].
Qed.

Lemma scrape_elements_known web s0 idx page els :
  web idx = Some page ->
  (∀ el, el ∈ els -> el ∈ select sel_listing_links page) ->
  ∀ p, base_url (self p) = base_url s0 ->
       idx ∈ index_requests (sent p) ->
       known web s0 p -> known web s0 (scrape_elements web els p).1.
Proof.
  intros Hw. induction els as [|el els IH]; intros Hels p Hb Hidx H; [exact H|].
  assert (Hrest : ∀ el', el' ∈ els -> el' ∈ select sel_listing_links page).
  { intros el' Hel. apply Hels, list_elem_of_further, Hel. }
  rewrite scrape_elements_cons.
  destruct (getitem el "href") as [href|e] eqn:Eh; [|exact H].
  cbn zeta. case_decide; [apply IH; assumption|].
  set (u := base_url (self p) +:+ href).
  set (q := update (add_scraped u) p).
  assert (H1 : known web s0 (scrape_listing web u q).1).
  { apply scrape_listing_known; [exact H|].
    exists idx. split; [exact Hidx|].
    exists page, el, href. split_and!; [exact Hw|apply Hels, list_elem_of_here|exact Eh|].
    unfold u. rewrite Hb. reflexivity. }
  unfold and_then. destruct (scrape_listing web u q).2 eqn:Eo; [|exact H1..].
  apply IH; [exact Hrest| | |exact H1].
  - rewrite (ext_base_url _ _ (scrape_listing_extends web u q)). exact Hb.
  - rewrite scrape_listing_sent. unfold index_requests in *. rewrite omap_app.
    cbn. rewrite app_nil_r. exact Hidx.
Qed.

Lemma scrape_page_known depth web s0 :
  ∀ url p, base_url (self p) = base_url s0 ->
           known web s0 p -> known web s0 (scrape_page depth web url p).1.
Proof.
  induction depth as [|depth IH]; intros url p Hb H; [exact H|].
  cbn [scrape_page].
  set (p1 := send (Index_page url) p).
  assert (H1 : known web s0 p1).
  { unfold known, p1 in *. rewrite listing_requests_send_index.
    eapply Forall_impl; [exact H|]. intros u (idx & Hi & Hd).
    exists idx. split; [|exact Hd].
    rewrite index_requests_send_index. apply elem_of_app. left. exact Hi. }
  destruct (web url) as [page|] eqn:Ew; [|exact H1].
  assert (H2 : known web s0 (scrape_elements web (select sel_listing_links page) p1).1).
  { apply (scrape_elements_known web s0 url page); auto.
    unfold p1. rewrite index_requests_send_index.
    apply elem_of_app. right. apply list_elem_of_here. }
  pose proof (ext_base_url _ _ (scrape_elements_extends web
                (select sel_listing_links page) p1)) as Hb1.
  unfold and_then.
  destruct (scrape_elements web (select sel_listing_links page) p1).2; [|exact H2..].
  destruct (select_one sel_pager_next page) as [next|]; [|exact H2].
  destruct (getitem next "href"); [|exact H2].
  apply IH; [|exact H2]. rewrite Hb1. exact Hb.
Qed.

(** X14: in every run, every listing URL requested is the base URL followed
    by the [href] of a listing link found on an index page that was
    requested and answered in this run. *)
Theorem only_discovered_listings_requested depth web start :
  Forall (fun u => ∃ idx, idx ∈ index_requests (sent (scrape depth web (init start)).1) ∧
                          discoverable web (init start) idx u)
         (listing_requests (sent (scrape depth web (init start)).1)).
Proof.
  unfold scrape.
  apply (scrape_page_known depth web (init start) _ {| self := init start; sent := [] |});
    [reflexivity|constructor].
Qed.

(** ** One record per visited URL *)

(** X15: when the walk returns, the collection has as many records as the
    visited set has URLs. *)
Theorem one_record_per_visited_url depth web start :
  (scrape depth web (init start)).2 = Returned ->
  length (data (self (scrape depth web (init start)).1))
  = size (scraped_urls (self (scrape depth web (init start)).1)).
Proof.
  unfold scrape. set (p0 := {| self := init start; sent := [] |}). intros Hret.
  assert (H0 : consistent p0).
  { split; [constructor|]. intros u. cbn. split; intros H; inversion H. }
  destruct (scrape_page_consistent depth web (start_url (init start)) p0 H0)
    as ((Hnd & Hset) & Hst & _).
  specialize (Hst eq_refl Hret). unfold settled, record_urls in Hst.
  set (p := (scrape_page depth web (start_url (init start)) p0).1) in *.
  assert (E : scraped_urls (self p) = list_to_set (listing_requests (sent p))).
  { apply set_eq. intros u. rewrite elem_of_list_to_set. apply Hset. }
  rewrite E, size_list_to_set by exact Hnd.
  rewrite <- Hst, length_map. reflexivity.
Qed.

Lemma one_record_per_visited_url_witness :
  length (data (self (scrape 2 Demo.web init_default).1)) = 3.
Proof.
  etrans.
  - apply (one_record_per_visited_url 2 Demo.web
             "https://www.barbadospropertysearch.com/for-rent"). reflexivity.
  - vm_compute. reflexivity.
Defined.

(** ** Chains longer than the recursion limit *)

(** X16: on a chain of index pages whose listings can all be extracted and
    which has more pages than the recursion limit allows nested calls of
    [scrape_page], the walk raises [RecursionError]; it has then requested
    the first pages of the chain, as many as the limit allows, in order. *)
Theorem chain_longer_than_recursion_limit web start pages depth :
  is_chain web (base_url (init start)) pages ->
  head pages.*1 = Some start ->
  listings_ok web (base_url (init start)) pages ->
  (depth < length pages)%nat ->
  (scrape depth web (init start)).2 = Raised RecursionError ∧
  index_requests (sent (scrape depth web (init start)).1) = take depth pages.*1.
Proof.
  intros Hc Hh Hok Hdepth. unfold scrape.
  apply (scrape_page_chain_too_long web pages depth (start_url (init start))
           {| self := init start; sent := [] |} Hc Hh Hok Hdepth).
Qed.

Lemma chain_longer_than_recursion_limit_witness :
  (scrape 1 Demo.web init_default).2 = Raised RecursionError ∧
  index_requests (sent (scrape 1 Demo.web init_default).1)
    = ["https://www.barbadospropertysearch.com/for-rent"].
Proof.
  refine (chain_longer_than_recursion_limit Demo.web
            "https://www.barbadospropertysearch.com/for-rent"
            [(Demo.b +:+ "/for-rent", Demo.index1);
             (Demo.b +:+ "/for-rent?page=1", Demo.index2)] 1 _ _ _ _).
  - cbn. split; [reflexivity|]. split; [|split; reflexivity].
    eexists _, _. split_and!; reflexivity.
  - reflexivity.
  - intros u page el Hin Hel.
    apply elem_of_cons in Hin as [[= -> ->]|Hin];
      [|apply list_elem_of_singleton in Hin; injection Hin as -> ->].
    + apply elem_of_cons in Hel as [->|Hel];
        [|apply list_elem_of_singleton in Hel as ->].
      * exists "/p/1", Demo.p1. split_and!; try reflexivity.
        repeat split; cbn; eauto.
      * exists "/p/2", Demo.p2. split_and!; try reflexivity.
        repeat split; cbn; eauto.
    + apply elem_of_cons in Hel as [->|Hel];
        [|apply list_elem_of_singleton in Hel as ->].
      * exists "/p/2", Demo.p2. split_and!; try reflexivity.
        repeat split; cbn; eauto.
      * exists "/p/3", Demo.p3. split_and!; try reflexivity.
        repeat split; cbn; eauto.
  - cbn. lia.
Defined.
